(** * acpcModule1: the AC-PC alignment transform

    A shallow embedding of [getMatrixToACPC] and of the landmark loop of
    [myLogic.run] (src/acpcModule1/acpcModule1.py), with the properties the
    specification states about them.

    The source computes on numpy [float64] arrays.  The arithmetic it uses
    is collected in the interface [Scalar], and every function of the
    source is written once, over that interface.  Two instances are used:

    - [float_Scalar]: the kernel's binary64 floats (IEEE 754,
      round-to-nearest-even, one NaN).  This is the arithmetic of the
      program.  numpy hands the sums of products of [np.linalg.norm] and
      [np.dot] to BLAS, which may or may not fuse a product into the sum;
      the statements made on binary64 are about special values (NaN,
      infinities, zeros), about signs, or about inputs on which every
      product and sum is exact, and hold either way;
    - [R_Scalar]: the real numbers, i.e. the formulas of the source in
      exact arithmetic.  What is proved on it says what the formulas are
      meant to compute, not what the program returns: rounding, overflow
      and division by zero are outside it (section [ExactAlgebra], and
      the lemmas of the last sections that show where binary64 departs
      from it). *)

From stdpp Require Import base list.
From Stdlib Require Import Reals Lra Psatz Floats ZArith String.

(* ===================================================================== *)
(** ** Arithmetic interface *)
(* ===================================================================== *)

(** The scalar operations [getMatrixToACPC] performs on array elements:
    the literals [0.0], [1.0] (entries of [np.eye]) and [0.5], the four
    arithmetic operations, unary minus and the square root. *)
Class Scalar (A : Type) : Type := {
  s0 : A;
  s1 : A;
  shalf : A;
  sadd : A -> A -> A;
  ssub : A -> A -> A;
  smul : A -> A -> A;
  sdiv : A -> A -> A;
  sneg : A -> A;
  ssqrt : A -> A
}.

Declare Scope scalar_scope.
Delimit Scope scalar_scope with S.
Infix "+" := sadd : scalar_scope.
Infix "-" := ssub : scalar_scope.
Infix "*" := smul : scalar_scope.
Infix "/" := sdiv : scalar_scope.
Notation "- x" := (sneg x) : scalar_scope.

#[export] Instance float_Scalar : Scalar float := {
  s0 := 0%float;
  s1 := 1%float;
  shalf := 0.5%float;
  sadd := PrimFloat.add;
  ssub := PrimFloat.sub;
  smul := PrimFloat.mul;
  sdiv := PrimFloat.div;
  sneg := PrimFloat.opp;
  ssqrt := PrimFloat.sqrt
}.

#[export] Instance R_Scalar : Scalar R := {
  s0 := 0%R;
  s1 := 1%R;
  shalf := (/ 2)%R;
  sadd := Rplus;
  ssub := Rminus;
  smul := Rmult;
  sdiv := Rdiv;
  sneg := Ropp;
  ssqrt := R_sqrt.sqrt
}.

(* ===================================================================== *)
(** ** Arrays *)
(* ===================================================================== *)

(** A numpy array of shape (3,). *)
Record vec3 (A : Type) : Type := V3 { c0 : A; c1 : A; c2 : A }.
(** A numpy array of shape (4,): one row of the homogeneous matrix. *)
Record vec4 (A : Type) : Type := V4 { d0 : A; d1 : A; d2 : A; d3 : A }.
(** Shape (3,3), by rows. *)
Record mat3 (A : Type) : Type := M3 { r0 : vec3 A; r1 : vec3 A; r2 : vec3 A }.
(** Shape (4,4), by rows. *)
Record mat4 (A : Type) : Type :=
  M4 { q0 : vec4 A; q1 : vec4 A; q2 : vec4 A; q3 : vec4 A }.

Arguments V3 {A} _ _ _.
Arguments c0 {A} _.
Arguments c1 {A} _.
Arguments c2 {A} _.
Arguments V4 {A} _ _ _ _.
Arguments d0 {A} _.
Arguments d1 {A} _.
Arguments d2 {A} _.
Arguments d3 {A} _.
Arguments M3 {A} _ _ _.
Arguments r0 {A} _.
Arguments r1 {A} _.
Arguments r2 {A} _.
Arguments M4 {A} _ _ _ _.
Arguments q0 {A} _.
Arguments q1 {A} _.
Arguments q2 {A} _.
Arguments q3 {A} _.

(* ===================================================================== *)
(** ** The numpy operations used by the source *)
(* ===================================================================== *)

Section Numpy.
Context {A : Type} `{Scalar A}.
Local Open Scope scalar_scope.

(** [a - b] on two arrays of shape (3,). *)
Definition np_sub (a b : vec3 A) : vec3 A :=
  V3 (c0 a - c0 b) (c1 a - c1 b) (c2 a - c2 b).

(** [a + b] on two arrays of shape (3,). *)
Definition np_add (a b : vec3 A) : vec3 A :=
  V3 (c0 a + c0 b) (c1 a + c1 b) (c2 a + c2 b).

(** [a / s], and the in-place [a /= s], with [s] a scalar. *)
Definition np_div_s (a : vec3 A) (s : A) : vec3 A :=
  V3 (c0 a / s) (c1 a / s) (c2 a / s).

(** [np.dot(a, s)] with [s] a scalar: the elementwise product [a * s]. *)
Definition np_dot_s (a : vec3 A) (s : A) : vec3 A :=
  V3 (c0 a * s) (c1 a * s) (c2 a * s).

(** [-a]. *)
Definition np_neg (a : vec3 A) : vec3 A :=
  V3 (- c0 a) (- c1 a) (- c2 a).

(** [np.dot(a, b)] on two arrays of shape (3,): the inner product,
    accumulated from the first component on. *)
Definition np_dot (a b : vec3 A) : A :=
  c0 a * c0 b + c1 a * c1 b + c2 a * c2 b.

(** [np.linalg.norm(a)]: numpy computes [sqrt(a.dot(a))]. *)
Definition np_linalg_norm (a : vec3 A) : A := ssqrt (np_dot a a).

(** [np.cross(a, b)] on two arrays of shape (3,). *)
Definition np_cross (a b : vec3 A) : vec3 A :=
  V3 (c1 a * c2 b - c2 a * c1 b)
     (c2 a * c0 b - c0 a * c2 b)
     (c0 a * c1 b - c1 a * c0 b).

(** [np.vstack([x, y, z])]. *)
Definition np_vstack (x y z : vec3 A) : mat3 A := M3 x y z.

(** [np.dot(m, v)] with [m] of shape (3,3) and [v] of shape (3,). *)
Definition np_dot_mv (m : mat3 A) (v : vec3 A) : vec3 A :=
  V3 (np_dot (r0 m) v) (np_dot (r1 m) v) (np_dot (r2 m) v).

(** [np.eye(4)]. *)
Definition np_eye4 : mat4 A :=
  M4 (V4 s1 s0 s0 s0) (V4 s0 s1 s0 s0) (V4 s0 s0 s1 s0) (V4 s0 s0 s0 s1).

(** [matrix[:3, :3] = rotation]. *)
Definition set_block33 (m : mat4 A) (r : mat3 A) : mat4 A :=
  M4 (V4 (c0 (r0 r)) (c1 (r0 r)) (c2 (r0 r)) (d3 (q0 m)))
     (V4 (c0 (r1 r)) (c1 (r1 r)) (c2 (r1 r)) (d3 (q1 m)))
     (V4 (c0 (r2 r)) (c1 (r2 r)) (c2 (r2 r)) (d3 (q2 m)))
     (q3 m).

(** [matrix[:3, 3] = translation]. *)
Definition set_col3 (m : mat4 A) (t : vec3 A) : mat4 A :=
  M4 (V4 (d0 (q0 m)) (d1 (q0 m)) (d2 (q0 m)) (c0 t))
     (V4 (d0 (q1 m)) (d1 (q1 m)) (d2 (q1 m)) (c1 t))
     (V4 (d0 (q2 m)) (d1 (q2 m)) (d2 (q2 m)) (c2 t))
     (q3 m).

(* ------------------------------------------------------------------- *)
(** *** [getMatrixToACPC], lines 23-52 *)
(* ------------------------------------------------------------------- *)

(** The anteroposterior axis, lines 26-27. *)
Definition yAxis_of (ac pc : vec3 A) : vec3 A :=
  let pcAc := np_sub ac pc in
  np_div_s pcAc (np_linalg_norm pcAc).

(** The cross product of line 31, before it is normalised. *)
Definition xAxis_raw (ac pc ih : vec3 A) : vec3 A :=
  let acIhDir := np_sub ih ac in
  np_cross (yAxis_of ac pc) acIhDir.

(** The lateral axis, lines 30-32. *)
Definition xAxis_of (ac pc ih : vec3 A) : vec3 A :=
  let xAxis := xAxis_raw ac pc ih in
  np_div_s xAxis (np_linalg_norm xAxis).

(** The rostrocaudal axis, line 35. *)
Definition zAxis_of (ac pc ih : vec3 A) : vec3 A :=
  np_cross (xAxis_of ac pc ih) (yAxis_of ac pc).

(** The rotation block, line 38. *)
Definition rotation_of (ac pc ih : vec3 A) : mat3 A :=
  np_vstack (xAxis_of ac pc ih) (yAxis_of ac pc) (zAxis_of ac pc ih).

(** The point the source subtracts before rotating, line 43:
    [ac - np.dot(yAxis, 0.5*np.linalg.norm(pcAc))]. *)
Definition origin_of (ac pc : vec3 A) : vec3 A :=
  let pcAc := np_sub ac pc in
  np_sub ac (np_dot_s (yAxis_of ac pc) (shalf * np_linalg_norm pcAc)).

(** The translation, line 43. *)
Definition translation_of (ac pc ih : vec3 A) : vec3 A :=
  np_neg (np_dot_mv (rotation_of ac pc ih) (origin_of ac pc)).

Definition getMatrixToACPC (ac pc ih : vec3 A) : mat4 A :=
  let rotation := rotation_of ac pc ih in
  let translation := translation_of ac pc ih in
  let matrix := np_eye4 in
  let matrix := set_block33 matrix rotation in
  let matrix := set_col3 matrix translation in
  matrix.

(* ------------------------------------------------------------------- *)
(** *** Reading a transform *)
(* ------------------------------------------------------------------- *)

(** The rotation block [matrix[:3, :3]] and the translation
    [matrix[:3, 3]] of a homogeneous matrix. *)
Definition rot_block (m : mat4 A) : mat3 A :=
  M3 (V3 (d0 (q0 m)) (d1 (q0 m)) (d2 (q0 m)))
     (V3 (d0 (q1 m)) (d1 (q1 m)) (d2 (q1 m)))
     (V3 (d0 (q2 m)) (d1 (q2 m)) (d2 (q2 m))).

Definition trans_col (m : mat4 A) : vec3 A :=
  V3 (d3 (q0 m)) (d3 (q1 m)) (d3 (q2 m)).

(** The homogeneous point [(x, y, z, 1)]. *)
Definition homog (p : vec3 A) : vec4 A := V4 (c0 p) (c1 p) (c2 p) s1.

Definition dot4 (a b : vec4 A) : A :=
  d0 a * d0 b + d1 a * d1 b + d2 a * d2 b + d3 a * d3 b.

(** The product of a 4x4 matrix and a homogeneous column. *)
Definition mat4_mul_vec (m : mat4 A) (v : vec4 A) : vec4 A :=
  V4 (dot4 (q0 m) v) (dot4 (q1 m) v) (dot4 (q2 m) v) (dot4 (q3 m) v).

(** Applying a transform to a point: the first three components of the
    matrix times the homogeneous point. *)
Definition transformPoint (m : mat4 A) (p : vec3 A) : vec3 A :=
  let v := mat4_mul_vec m (homog p) in V3 (d0 v) (d1 v) (d2 v).

End Numpy.


(* ===================================================================== *)
(** ** Exact arithmetic: the vocabulary of the specification *)
(* ===================================================================== *)

Section ExactDefs.
Local Open Scope R_scope.

Definition zero3 : vec3 R := V3 0 0 0.

(** [k * v]. *)
Definition scale (k : R) (v : vec3 R) : vec3 R :=
  V3 (k * c0 v) (k * c1 v) (k * c2 v).

(** The mid-commissural point [(ac + pc) / 2]. *)
Definition midpoint (ac pc : vec3 R) : vec3 R :=
  V3 ((c0 ac + c0 pc) / 2) ((c1 ac + c1 pc) / 2) ((c2 ac + c2 pc) / 2).

(** [ih] lies on the line through [ac] and [pc]:
    [ih = ac + k*(ac - pc)] for some scalar [k]. *)
Definition collinear (ac pc ih : vec3 R) : Prop :=
  exists k : R, ih = np_add ac (scale k (np_sub ac pc)).

(** A non-degenerate triple: [ac != pc] and [ih] off the AC-PC line. *)
Definition nondegenerate (ac pc ih : vec3 R) : Prop :=
  ac <> pc /\ ~ collinear ac pc ih.

(** The determinant of a 3x3 matrix, expanded along its first row. *)
Definition det3 (m : mat3 R) : R :=
  c0 (r0 m) * (c1 (r1 m) * c2 (r2 m) - c2 (r1 m) * c1 (r2 m))
  - c1 (r0 m) * (c0 (r1 m) * c2 (r2 m) - c2 (r1 m) * c0 (r2 m))
  + c2 (r0 m) * (c0 (r1 m) * c1 (r2 m) - c1 (r1 m) * c0 (r2 m)).

(** Rows of unit norm, pairwise orthogonal. *)
Record orthonormal (m : mat3 R) : Prop := {
  on_norm0 : np_linalg_norm (r0 m) = 1;
  on_norm1 : np_linalg_norm (r1 m) = 1;
  on_norm2 : np_linalg_norm (r2 m) = 1;
  on_dot01 : np_dot (r0 m) (r1 m) = 0;
  on_dot02 : np_dot (r0 m) (r2 m) = 0;
  on_dot12 : np_dot (r1 m) (r2 m) = 0
}.

End ExactDefs.

(* ===================================================================== *)
(** ** binary64: special values *)
(* ===================================================================== *)

Section Float64Defs.
Local Open Scope float_scope.

Definition nan3 : vec3 float := V3 nan nan nan.
Definition nan4 : vec4 float := V4 nan nan nan nan.

(** A zero of either sign. *)
Definition is_zero (x : float) : Prop := x = 0 \/ x = -0.

Definition zero_vec (v : vec3 float) : Prop :=
  is_zero (c0 v) /\ is_zero (c1 v) /\ is_zero (c2 v).

Definition row_has_nan (v : vec4 float) : bool :=
  is_nan (d0 v) || is_nan (d1 v) || is_nan (d2 v) || is_nan (d3 v).

(** [np.isnan(m).any()]. *)
Definition has_nan (m : mat4 float) : bool :=
  row_has_nan (q0 m) || row_has_nan (q1 m) || row_has_nan (q2 m)
  || row_has_nan (q3 m).

(** [(a == b).all()] on two landmarks: numpy's comparison element by
    element, for which [+0.0] equals [-0.0] and a NaN equals nothing. *)
Definition vec_eqb (a b : vec3 float) : bool :=
  (c0 a =? c0 b) && (c1 a =? c1 b) && (c2 a =? c2 b).

(** A zero of either sign, or NaN: the values a difference [a - b] can
    take when [a == b]. *)
Definition zero_or_nan (x : float) : Prop :=
  match Prim2SF x with
  | S754_zero _ | S754_nan => True
  | _ => False
  end.

(** [np.array_equal(x, y, equal_nan=True)] on one element: the same
    number ([+0.0] and [-0.0] are), or NaN on both sides. *)
Definition same64 (x y : float) : bool :=
  (x =? y) || (is_nan x && is_nan y).

Definition vec_same64 (a b : vec3 float) : bool :=
  same64 (c0 a) (c0 b) && same64 (c1 a) (c1 b) && same64 (c2 a) (c2 b).

(** Equal, or both a zero (of either sign). *)
Definition same_up_to_zero_sign (x y : float) : Prop :=
  x = y \/ match Prim2SF x, Prim2SF y with
           | S754_zero _, S754_zero _ => True
           | _, _ => False
           end.

End Float64Defs.

(** [np.isnan(v).any()] for one of the three landmarks. *)
Definition vec_has_nan (v : vec3 float) : bool :=
  is_nan (c0 v) || is_nan (c1 v) || is_nan (c2 v).

(* ===================================================================== *)
(** ** [myLogic.run]: reading the landmarks, lines 186-201 *)
(* ===================================================================== *)

(** The exceptions the modelled code can raise.  The source has no
    [raise] statement; the only failure of lines 186-201 is the use of a
    local variable the loop never assigned. *)
Inductive PyExc : Type :=
| UnboundLocalError (name : string).

Inductive result (X : Type) : Type :=
| Ok (x : X)
| Raise (e : PyExc).

Arguments Ok {X} _.
Arguments Raise {X} _.

(** The locals [ac], [pc], [ih] of [run]; [None] is an unbound name. *)
Record run_locals (A : Type) : Type :=
  Locals { l_ac : option (vec3 A); l_pc : option (vec3 A); l_ih : option (vec3 A) }.

Arguments Locals {A} _ _ _.
Arguments l_ac {A} _.
Arguments l_pc {A} _.
Arguments l_ih {A} _.

Section Run.
Context {A : Type} `{Scalar A}.

(** [acpcFid.GetNthFiducialPosition(i, ras)]: the position of the [i]-th
    point of the markup, written into [ras].  The markup node is modelled
    as the list of its points. *)
Definition GetNthFiducialPosition (acpcFid : list (vec3 A)) (i : nat)
    (ras : vec3 A) : vec3 A :=
  match acpcFid !! i with
  | Some p => p
  | None => ras
  end.

(** One iteration of the loop of lines 190-198. *)
Definition run_body (acpcFid : list (vec3 A)) (st : run_locals A) (i : nat)
    : run_locals A :=
  let ras := V3 s0 s0 s0 in
  let ras := GetNthFiducialPosition acpcFid i ras in
  let st := if Nat.eqb i 0 then Locals (Some ras) (l_pc st) (l_ih st) else st in
  let st := if Nat.eqb i 1 then Locals (l_ac st) (Some ras) (l_ih st) else st in
  let st := if Nat.eqb i 2 then Locals (l_ac st) (l_pc st) (Some ras) else st in
  st.

(** [for i in range(acpcFid.GetNumberOfFiducials())]. *)
Definition run_loop (acpcFid : list (vec3 A)) : run_locals A :=
  fold_left (run_body acpcFid) (seq 0 (List.length acpcFid)) (Locals None None None).

(** Lines 186-201: the result is the matrix handed to the scene (line
    208), or the exception raised on the way.  The arguments of the call
    of line 201 are evaluated from left to right. *)
Definition run (acpcFid : list (vec3 A)) : result (mat4 A) :=
  let st := run_loop acpcFid in
  match l_ac st with
  | None => Raise (UnboundLocalError "ac"%string)
  | Some ac =>
    match l_pc st with
    | None => Raise (UnboundLocalError "pc"%string)
    | Some pc =>
      match l_ih st with
      | None => Raise (UnboundLocalError "ih"%string)
      | Some ih => Ok (getMatrixToACPC ac pc ih)
      end
    end
  end.

End Run.

(* ===================================================================== *)
(** ** [getMatrixToACPC] on a store of arrays *)
(* ===================================================================== *)

(** numpy arrays are mutable objects, passed by reference.  To state
    what the function does to its arguments the arrays live in a store,
    a reference is an index into it, and every statement of the source
    either allocates a fresh array or updates one in place. *)
Inductive ndarray (A : Type) : Type :=
| Arr3 (v : vec3 A)
| Arr33 (m : mat3 A)
| Arr44 (m : mat4 A).

Arguments Arr3 {A} _.
Arguments Arr33 {A} _.
Arguments Arr44 {A} _.

Definition ref : Type := nat.

(** A computation on the store that may fail (a reference that is
    dangling or of the wrong shape). *)
Definition St (A X : Type) : Type := list (ndarray A) -> option (X * list (ndarray A)).

Definition st_ret {A X : Type} (x : X) : St A X := fun h => Some (x, h).

Definition st_bind {A X Y : Type} (c : St A X) (k : X -> St A Y) : St A Y :=
  fun h => match c h with
           | Some (x, h') => k x h'
           | None => None
           end.

Notation "'let*' x := c 'in' k" := (st_bind c (fun x => k))
  (at level 10, x name, c at level 100, k at level 200).
Notation "c ;; k" := (st_bind c (fun _ => k))
  (at level 100, k at level 200, right associativity).

Section Store.
Context {A : Type} `{Scalar A}.

(** A fresh array: its reference is the next free index. *)
Definition alloc (a : ndarray A) : St A ref :=
  fun h => Some (List.length h, h ++ [a]).

Definition load3 (r : ref) : St A (vec3 A) :=
  fun h => match h !! r with
           | Some (Arr3 v) => Some (v, h)
           | _ => None
           end.

Definition load33 (r : ref) : St A (mat3 A) :=
  fun h => match h !! r with
           | Some (Arr33 m) => Some (m, h)
           | _ => None
           end.

Definition load44 (r : ref) : St A (mat4 A) :=
  fun h => match h !! r with
           | Some (Arr44 m) => Some (m, h)
           | _ => None
           end.

(** An update in place of the array behind [r]. *)
Definition store (r : ref) (a : ndarray A) : St A unit :=
  fun h => if Nat.ltb r (List.length h) then Some (tt, <[r := a]> h) else None.

(** [a - b]: a new array. *)
Definition py_sub (a b : ref) : St A ref :=
  let* x := load3 a in let* y := load3 b in alloc (Arr3 (np_sub x y)).

(** [np.linalg.norm(a)]: a Python float, not an array. *)
Definition py_norm (a : ref) : St A A :=
  let* x := load3 a in st_ret (np_linalg_norm x).

(** [a / s]: a new array. *)
Definition py_div_s (a : ref) (s : A) : St A ref :=
  let* x := load3 a in alloc (Arr3 (np_div_s x s)).

(** [a /= s]: the array behind [a] is overwritten. *)
Definition py_idiv_s (a : ref) (s : A) : St A unit :=
  let* x := load3 a in store a (Arr3 (np_div_s x s)).

(** [np.cross(a, b)]: a new array. *)
Definition py_cross (a b : ref) : St A ref :=
  let* x := load3 a in let* y := load3 b in alloc (Arr3 (np_cross x y)).

(** [np.vstack([x, y, z])]: a new array, the rows are copied. *)
Definition py_vstack (x y z : ref) : St A ref :=
  let* a := load3 x in let* b := load3 y in let* c := load3 z in
  alloc (Arr33 (np_vstack a b c)).

(** [np.dot(a, s)] with [s] a scalar: a new array. *)
Definition py_dot_s (a : ref) (s : A) : St A ref :=
  let* x := load3 a in alloc (Arr3 (np_dot_s x s)).

(** [np.dot(m, v)]: a new array. *)
Definition py_dot_mv (m v : ref) : St A ref :=
  let* a := load33 m in let* x := load3 v in alloc (Arr3 (np_dot_mv a x)).

(** [-a]: a new array. *)
Definition py_neg (a : ref) : St A ref :=
  let* x := load3 a in alloc (Arr3 (np_neg x)).

(** [np.eye(4)]: a new array. *)
Definition py_eye4 : St A ref := alloc (Arr44 np_eye4).

(** [matrix[:3, :3] = rotation]: [matrix] is overwritten. *)
Definition py_set_block33 (matrix rotation : ref) : St A unit :=
  let* m := load44 matrix in let* r := load33 rotation in
  store matrix (Arr44 (set_block33 m r)).

(** [matrix[:3, 3] = translation]: [matrix] is overwritten. *)
Definition py_set_col3 (matrix translation : ref) : St A unit :=
  let* m := load44 matrix in let* t := load3 translation in
  store matrix (Arr44 (set_col3 m t)).

(** Lines 23-52, statement by statement. *)
Definition getMatrixToACPC_st (ac pc ih : ref) : St A ref :=
  let* pcAc := py_sub ac pc in
  let* n := py_norm pcAc in
  let* yAxis := py_div_s pcAc n in
  let* acIhDir := py_sub ih ac in
  let* xAxis := py_cross yAxis acIhDir in
  let* nx := py_norm xAxis in
  py_idiv_s xAxis nx;;
  let* zAxis := py_cross xAxis yAxis in
  let* rotation := py_vstack xAxis yAxis zAxis in
  let* n' := py_norm pcAc in
  let* half := py_dot_s yAxis (smul shalf n') in
  let* origin := py_sub ac half in
  let* rotated := py_dot_mv rotation origin in
  let* translation := py_neg rotated in
  let* matrix := py_eye4 in
  py_set_block33 matrix rotation;;
  py_set_col3 matrix translation;;
  st_ret matrix.

End Store.

(* ===================================================================== *)
(** ** [myLogic.run]: handing the matrix to the scene, lines 202-217 *)
(* ===================================================================== *)

(** What the whole of [run] can raise: the unbound local of line 201, or
    an attribute looked up on [None] (a selector with no current node
    hands [None] to [run]). *)
Inductive RunExc : Type :=
| LocalError (e : PyExc)
| AttributeError (attr : string).

(** The markup node as [run] uses it: its MRML ID and its points. *)
Record MarkupsNode (A : Type) : Type :=
  Markups { markups_id : string; markups_points : list (vec3 A) }.

Arguments Markups {A} _ _.
Arguments markups_id {A} _.
Arguments markups_points {A} _.

(** The calls by which [run] changes the scene, in the order they are
    made.  A node is named by its MRML ID; [hardenTransform] is the
    method of [slicer.vtkSlicerTransformLogic]. *)
Inductive SlicerCall (A : Type) : Type :=
| SetAndObserveMatrixTransformToParent (transformNode : string) (vtkMatrix : mat4 A)
| SetAndObserveTransformNodeID (node : string) (transformID : string)
| hardenTransform (node : string).

Arguments SetAndObserveMatrixTransformToParent {A} _ _.
Arguments SetAndObserveTransformNodeID {A} _ _.
Arguments hardenTransform {A} _.

(** The values of [range(4)]. *)
Inductive idx4 : Type := I0 | I1 | I2 | I3.

Definition range4 : list idx4 := [I0; I1; I2; I3].

(** [!=] on the elements of a matrix.  On doubles it is C's comparison:
    [+0.0] and [-0.0] are not different, a NaN is different from
    everything, itself included. *)
Class ScalarNe (A : Type) : Type := sne : A -> A -> bool.

#[export] Instance float_ScalarNe : ScalarNe float :=
  fun x y => negb (x =? y)%float.

(** [old] after [if (old != new) old = new]. *)
Definition vtk_keep {A : Type} `{ScalarNe A} (old new : A) : A :=
  if sne old new then new else old.

Section Scene.
Context {A : Type} `{Scalar A} `{ScalarNe A}.

(** [vtk.vtkMatrix4x4()]: the identity. *)
Definition vtkMatrix4x4 : mat4 A :=
  M4 (V4 s1 s0 s0 s0) (V4 s0 s1 s0 s0) (V4 s0 s0 s1 s0) (V4 s0 s0 s0 s1).

Definition get4 (v : vec4 A) (col : idx4) : A :=
  match col with
  | I0 => d0 v | I1 => d1 v | I2 => d2 v | I3 => d3 v
  end.

Definition set4 (v : vec4 A) (col : idx4) (x : A) : vec4 A :=
  match col with
  | I0 => V4 x (d1 v) (d2 v) (d3 v)
  | I1 => V4 (d0 v) x (d2 v) (d3 v)
  | I2 => V4 (d0 v) (d1 v) x (d3 v)
  | I3 => V4 (d0 v) (d1 v) (d2 v) x
  end.

Definition row4 (m : mat4 A) (row : idx4) : vec4 A :=
  match row with
  | I0 => q0 m | I1 => q1 m | I2 => q2 m | I3 => q3 m
  end.

Definition set_row4 (m : mat4 A) (row : idx4) (r : vec4 A) : mat4 A :=
  match row with
  | I0 => M4 r (q1 m) (q2 m) (q3 m)
  | I1 => M4 (q0 m) r (q2 m) (q3 m)
  | I2 => M4 (q0 m) (q1 m) r (q3 m)
  | I3 => M4 (q0 m) (q1 m) (q2 m) r
  end.

(** [matrix[row, col]] for [row], [col] in [range(4)]; the same read is
    [Element[row][col]] of a [vtkMatrix4x4]. *)
Definition np_getitem (matrix : mat4 A) (row col : idx4) : A :=
  get4 (row4 matrix row) col.

(** [vtkMatrix.SetElement(row, col, x)].  The method of VTK is
    [if (this->Element[i][j] != value) { this->Element[i][j] = value;
    this->Modified(); }]: the element is written only when it differs
    from [x]. *)
Definition SetElement (vtkMatrix : mat4 A) (row col : idx4) (x : A) : mat4 A :=
  if sne (np_getitem vtkMatrix row col) x
  then set_row4 vtkMatrix row (set4 (row4 vtkMatrix row) col x)
  else vtkMatrix.

(** The body of the inner loop, line 205. *)
Definition copy_element (matrix : mat4 A) (row : idx4) (vtkMatrix : mat4 A)
    (col : idx4) : mat4 A :=
  SetElement vtkMatrix row col (np_getitem matrix row col).

(** [for col in range(4)], line 204. *)
Definition copy_row (matrix : mat4 A) (vtkMatrix : mat4 A) (row : idx4)
    : mat4 A :=
  fold_left (copy_element matrix row) range4 vtkMatrix.

(** [for row in range(4)], lines 203-205, started on any [vtkMatrix]. *)
Definition copy_into (matrix vtkMatrix : mat4 A) : mat4 A :=
  fold_left (copy_row matrix) range4 vtkMatrix.

(** Lines 186-217.  The result is the list of the calls made on the
    scene, in order, and the exception that ended the run, if any.
    [None] for a node is Python's [None]; the Slicer calls themselves are
    taken to return. *)
Definition run_scene (acpcFid : option (MarkupsNode A))
    (volumeNode transformNode : option string) (autoHarden : bool)
    : list (SlicerCall A) * option RunExc :=
  match acpcFid with
  | None => ([], Some (AttributeError "GetNumberOfFiducials"))
  | Some fid =>
    match run (markups_points fid) with
    | Raise e => ([], Some (LocalError e))
    | Ok matrix =>
      let vtkMatrix := copy_into matrix vtkMatrix4x4 in
      match transformNode with
      | None =>
        ([], Some (AttributeError "SetAndObserveMatrixTransformToParent"))
      | Some tn =>
        let calls := [SetAndObserveMatrixTransformToParent tn vtkMatrix] in
        let calls := calls ++ [SetAndObserveTransformNodeID (markups_id fid) tn] in
        match volumeNode with
        | None => (calls, Some (AttributeError "SetAndObserveTransformNodeID"))
        | Some vol =>
          let calls := calls ++ [SetAndObserveTransformNodeID vol tn] in
          if autoHarden
          then (calls ++ [hardenTransform (markups_id fid); hardenTransform vol],
                None)
          else (calls, None)
        end
      end
    end
  end.

End Scene.

(* ===================================================================== *)
(** * Properties *)
(* ===================================================================== *)

(** ** Reading back the assembled matrix (any arithmetic) *)

Section Assembly.
Context {A : Type} `{Scalar A}.

Lemma rot_block_get (ac pc ih : vec3 A) :
  rot_block (getMatrixToACPC ac pc ih) = rotation_of ac pc ih.
Proof.
  unfold getMatrixToACPC, rot_block, set_col3, set_block33.
  cbn [q0 q1 q2 q3 d0 d1 d2 d3].
  destruct (rotation_of ac pc ih) as [[? ? ?] [? ? ?] [? ? ?]]. reflexivity.
Qed.

Lemma trans_col_get (ac pc ih : vec3 A) :
  trans_col (getMatrixToACPC ac pc ih) = translation_of ac pc ih.
Proof.
  unfold getMatrixToACPC, trans_col, set_col3, set_block33.
  cbn [q0 q1 q2 q3 d0 d1 d2 d3].
  destruct (translation_of ac pc ih). reflexivity.
Qed.

Lemma bottom_row_get (ac pc ih : vec3 A) :
  q3 (getMatrixToACPC ac pc ih) = V4 s0 s0 s0 s1.
Proof. reflexivity. Qed.

End Assembly.

(** ** Vector algebra over the reals *)

Section ExactAlgebra.
Local Open Scope R_scope.

Ltac vunfold :=
  unfold np_linalg_norm, np_dot_mv, np_vstack, np_cross, np_dot, np_neg,
    np_dot_s, np_div_s, np_add, np_sub, scale, midpoint, zero3 in *;
  cbn [c0 c1 c2 r0 r1 r2 sadd ssub smul sdiv sneg ssqrt s0 s1 shalf R_Scalar] in *.

Lemma dot_self_pos (v : vec3 R) : v <> zero3 -> 0 < np_dot v v.
Proof.
  intros Hv. destruct v as [x y z]. vunfold.
  destruct (Req_dec x 0) as [Hx|Hx]; [|nra].
  destruct (Req_dec y 0) as [Hy|Hy]; [|nra].
  destruct (Req_dec z 0) as [Hz|Hz]; [|nra].
  subst. contradiction Hv; reflexivity.
Qed.

Lemma norm_pos (v : vec3 R) : v <> zero3 -> 0 < np_linalg_norm v.
Proof. intros Hv. apply sqrt_lt_R0, dot_self_pos, Hv. Qed.

Lemma norm_sqr (v : vec3 R) : np_linalg_norm v * np_linalg_norm v = np_dot v v.
Proof. apply sqrt_sqrt. destruct v as [x y z]. vunfold. nra. Qed.

Lemma norm_of_unit (v : vec3 R) : np_dot v v = 1 -> np_linalg_norm v = 1.
Proof. intros Hv. unfold np_linalg_norm. rewrite Hv. apply sqrt_1. Qed.

Lemma div_s_scale (v : vec3 R) (s : R) : np_div_s v s = scale (/ s) v.
Proof. destruct v; vunfold. f_equal; unfold Rdiv; ring. Qed.

Lemma dot_scale_l (k : R) (v w : vec3 R) : np_dot (scale k v) w = k * np_dot v w.
Proof. destruct v, w; vunfold; ring. Qed.

Lemma dot_scale_r (k : R) (v w : vec3 R) : np_dot v (scale k w) = k * np_dot v w.
Proof. destruct v, w; vunfold; ring. Qed.

Lemma dot_comm (v w : vec3 R) : np_dot v w = np_dot w v.
Proof. destruct v, w; vunfold; ring. Qed.

Lemma cross_scale_l (k : R) (v w : vec3 R) :
  np_cross (scale k v) w = scale k (np_cross v w).
Proof. destruct v, w; vunfold; f_equal; ring. Qed.

Lemma cross_scale_r (k : R) (v w : vec3 R) :
  np_cross v (scale k w) = scale k (np_cross v w).
Proof. destruct v, w; vunfold; f_equal; ring. Qed.

Lemma dot_cross_l (v w : vec3 R) : np_dot v (np_cross v w) = 0.
Proof. destruct v, w; vunfold; ring. Qed.

Lemma dot_cross_r (v w : vec3 R) : np_dot w (np_cross v w) = 0.
Proof. destruct v, w; vunfold; ring. Qed.

(** Lagrange's identity. *)
Lemma lagrange (v w : vec3 R) :
  np_dot (np_cross v w) (np_cross v w)
  = np_dot v v * np_dot w w - np_dot v w * np_dot v w.
Proof. destruct v, w; vunfold; ring. Qed.

Lemma scale_scale (k l : R) (v : vec3 R) : scale k (scale l v) = scale (k * l) v.
Proof. destruct v; vunfold; f_equal; ring. Qed.

Lemma unit_normalize (v : vec3 R) :
  v <> zero3 ->
  np_dot (np_div_s v (np_linalg_norm v)) (np_div_s v (np_linalg_norm v)) = 1.
Proof.
  intros Hv. pose proof (norm_pos v Hv) as Hn. pose proof (norm_sqr v) as Hs.
  rewrite div_s_scale, dot_scale_l, dot_scale_r, <- Hs. field. lra.
Qed.

Lemma norm_scale (k : R) (v : vec3 R) :
  0 <= k -> np_linalg_norm (scale k v) = k * np_linalg_norm v.
Proof.
  intros Hk. unfold np_linalg_norm at 1. cbn [ssqrt R_Scalar].
  rewrite dot_scale_l, dot_scale_r.
  replace (k * (k * np_dot v v))
    with ((k * np_linalg_norm v) * (k * np_linalg_norm v)).
  - apply sqrt_square. apply Rmult_le_pos; [exact Hk|]. apply sqrt_pos.
  - rewrite <- norm_sqr. ring.
Qed.

Lemma scale_nonzero (k : R) (v : vec3 R) :
  k <> 0 -> v <> zero3 -> scale k v <> zero3.
Proof.
  intros Hk Hv Hz. apply Hv. destruct v. vunfold. injection Hz as H0 H1 H2.
  f_equal; apply Rmult_eq_reg_l with k; try assumption; lra.
Qed.

Lemma sub_nonzero (ac pc : vec3 R) : ac <> pc -> np_sub ac pc <> zero3.
Proof.
  intros Hne Hz. apply Hne. destruct ac, pc. vunfold.
  injection Hz as H0 H1 H2. f_equal; lra.
Qed.

(** A vector whose cross product with [p <> 0] vanishes is a multiple
    of [p]. *)
Lemma cross_zero_collinear (p d : vec3 R) :
  p <> zero3 -> np_cross p d = zero3 ->
  d = scale (np_dot p d / np_dot p p) p.
Proof.
  intros Hp Hc. pose proof (dot_self_pos p Hp) as Hpos.
  destruct p as [p0 p1 p2], d as [e0 e1 e2]. vunfold.
  injection Hc as H0 H1 H2.
  set (S := p0 * p0 + p1 * p1 + p2 * p2) in *.
  set (D := p0 * e0 + p1 * e1 + p2 * e2).
  assert (HS : S <> 0) by lra.
  f_equal; apply Rmult_eq_reg_l with S; try exact HS.
  - replace (S * (D / S * p0)) with (D * p0) by (field; exact HS).
    unfold S, D. apply Rminus_diag_uniq.
    replace (_ - _) with (p2 * (p2 * e0 - p0 * e2) - p1 * (p0 * e1 - p1 * e0)) by ring.
    rewrite H1, H2. ring.
  - replace (S * (D / S * p1)) with (D * p1) by (field; exact HS).
    unfold S, D. apply Rminus_diag_uniq.
    replace (_ - _) with (p0 * (p0 * e1 - p1 * e0) - p2 * (p1 * e2 - p2 * e1)) by ring.
    rewrite H0, H2. ring.
  - replace (S * (D / S * p2)) with (D * p2) by (field; exact HS).
    unfold S, D. apply Rminus_diag_uniq.
    replace (_ - _) with (p1 * (p1 * e2 - p2 * e1) - p0 * (p2 * e0 - p0 * e2)) by ring.
    rewrite H0, H1. ring.
Qed.

Lemma cross_nonzero (ac pc ih : vec3 R) :
  nondegenerate ac pc ih -> np_cross (np_sub ac pc) (np_sub ih ac) <> zero3.
Proof.
  intros [Hne Hnc] Hc. apply Hnc.
  pose proof (cross_zero_collinear _ _ (sub_nonzero _ _ Hne) Hc) as Hd.
  exists (np_dot (np_sub ac pc) (np_sub ih ac) / np_dot (np_sub ac pc) (np_sub ac pc)).
  set (k := np_dot _ _ / _) in *. clearbody k.
  destruct ac, pc, ih. vunfold. injection Hd as H0 H1 H2. f_equal; lra.
Qed.

(** *** The frame of a segment [ac <> pc] *)

Section Segment.
Variables ac pc : vec3 R.
Hypothesis Hne : ac <> pc.

Lemma pcAc_norm_pos : 0 < np_linalg_norm (np_sub ac pc).
Proof. apply norm_pos, sub_nonzero, Hne. Qed.

Lemma yAxis_unit : np_dot (yAxis_of ac pc) (yAxis_of ac pc) = 1.
Proof. apply unit_normalize, sub_nonzero, Hne. Qed.

(** [yAxis] scaled back by the AC-PC distance is [ac - pc]. *)
Lemma yAxis_rescaled :
  scale (np_linalg_norm (np_sub ac pc)) (yAxis_of ac pc) = np_sub ac pc.
Proof.
  pose proof pcAc_norm_pos as Hn. unfold yAxis_of. cbv zeta.
  rewrite div_s_scale, scale_scale.
  replace (np_linalg_norm (np_sub ac pc) * / np_linalg_norm (np_sub ac pc))
    with 1 by (field; lra).
  destruct (np_sub ac pc). vunfold. f_equal; ring.
Qed.

(** The point of line 43 is the mid-commissural point. *)
Lemma origin_is_midpoint : origin_of ac pc = midpoint ac pc.
Proof.
  pose proof pcAc_norm_pos as Hn. unfold origin_of, yAxis_of.
  set (n := np_linalg_norm _) in *. clearbody n.
  destruct ac, pc. vunfold. f_equal; field; lra.
Qed.

End Segment.

(** *** The frame of a non-degenerate triple *)

Lemma xAxis_orth_yAxis (ac pc ih : vec3 R) :
  np_dot (xAxis_of ac pc ih) (yAxis_of ac pc) = 0.
Proof.
  unfold xAxis_of. cbv zeta. rewrite div_s_scale, dot_scale_l.
  unfold xAxis_raw. cbv zeta. rewrite dot_comm, dot_cross_l. ring.
Qed.

Lemma xAxis_raw_scale (ac pc ih : vec3 R) :
  xAxis_raw ac pc ih
  = scale (/ np_linalg_norm (np_sub ac pc))
          (np_cross (np_sub ac pc) (np_sub ih ac)).
Proof.
  unfold xAxis_raw, yAxis_of. cbv zeta.
  rewrite div_s_scale, cross_scale_l. reflexivity.
Qed.

Section Frame.
Variables ac pc ih : vec3 R.
Hypothesis Hnd : nondegenerate ac pc ih.

Lemma xAxis_raw_nonzero : xAxis_raw ac pc ih <> zero3.
Proof.
  rewrite xAxis_raw_scale. apply scale_nonzero.
  - apply Rinv_neq_0_compat. pose proof (pcAc_norm_pos ac pc (proj1 Hnd)). lra.
  - apply cross_nonzero, Hnd.
Qed.

Lemma xAxis_unit : np_dot (xAxis_of ac pc ih) (xAxis_of ac pc ih) = 1.
Proof. apply unit_normalize, xAxis_raw_nonzero. Qed.

Lemma zAxis_unit : np_dot (zAxis_of ac pc ih) (zAxis_of ac pc ih) = 1.
Proof.
  unfold zAxis_of.
  rewrite lagrange, xAxis_unit, (yAxis_unit ac pc (proj1 Hnd)), xAxis_orth_yAxis.
  ring.
Qed.

End Frame.

(** *** Determinants *)

Lemma det3_cross (x y : vec3 R) :
  det3 (M3 x y (np_cross x y))
  = np_dot x x * np_dot y y - np_dot x y * np_dot x y.
Proof. destruct x, y. unfold det3. vunfold. ring. Qed.

(** Cramer's rule gives injectivity of a matrix of non-zero determinant. *)
Lemma dot_mv_injective (m : mat3 R) (v : vec3 R) :
  det3 m <> 0 -> np_dot_mv m v = zero3 -> v = zero3.
Proof.
  intros Hdet Hv.
  destruct m as [[a0 a1 a2] [b0 b1 b2] [c0' c1' c2']], v as [v0 v1 v2].
  unfold det3 in Hdet. vunfold. injection Hv as E0 E1 E2.
  set (D := a0 * (b1 * c2' - b2 * c1') - a1 * (b0 * c2' - b2 * c0')
            + a2 * (b0 * c1' - b1 * c0')) in *.
  f_equal; apply Rmult_eq_reg_l with D; try exact Hdet; rewrite Rmult_0_r.
  - transitivity ((a0 * v0 + a1 * v1 + a2 * v2) * (b1 * c2' - b2 * c1')
                  - (b0 * v0 + b1 * v1 + b2 * v2) * (a1 * c2' - a2 * c1')
                  + (c0' * v0 + c1' * v1 + c2' * v2) * (a1 * b2 - a2 * b1)).
    + unfold D. ring.
    + rewrite E0, E1, E2. ring.
  - transitivity (- (a0 * v0 + a1 * v1 + a2 * v2) * (b0 * c2' - b2 * c0')
                  + (b0 * v0 + b1 * v1 + b2 * v2) * (a0 * c2' - a2 * c0')
                  - (c0' * v0 + c1' * v1 + c2' * v2) * (a0 * b2 - a2 * b0)).
    + unfold D. ring.
    + rewrite E0, E1, E2. ring.
  - transitivity ((a0 * v0 + a1 * v1 + a2 * v2) * (b0 * c1' - b1 * c0')
                  - (b0 * v0 + b1 * v1 + b2 * v2) * (a0 * c1' - a1 * c0')
                  + (c0' * v0 + c1' * v1 + c2' * v2) * (a0 * b1 - a1 * b0)).
    + unfold D. ring.
    + rewrite E0, E1, E2. ring.
Qed.

(** *** The transform as a rigid motion *)

(** Applying the matrix is rotating the offset from the point of
    line 43. *)
Lemma transformPoint_rigid (ac pc ih p : vec3 R) :
  transformPoint (getMatrixToACPC ac pc ih) p
  = np_dot_mv (rotation_of ac pc ih) (np_sub p (origin_of ac pc)).
Proof.
  unfold transformPoint, mat4_mul_vec, dot4, homog, getMatrixToACPC, set_col3,
    set_block33, translation_of. cbn [q0 q1 q2 q3 d0 d1 d2 d3].
  destruct (rotation_of ac pc ih) as [[x0 x1 x2] [y0 y1 y2] [z0 z1 z2]].
  destruct (origin_of ac pc) as [o0 o1 o2]. destruct p as [p0 p1 p2].
  vunfold. f_equal; ring.
Qed.

Lemma homog_row3 (ac pc ih p : vec3 R) :
  d3 (mat4_mul_vec (getMatrixToACPC ac pc ih) (homog p)) = 1.
Proof.
  unfold mat4_mul_vec, dot4, homog, getMatrixToACPC, set_col3, set_block33,
    np_eye4.
  cbn [q0 q1 q2 q3 d0 d1 d2 d3 sadd smul s0 s1 R_Scalar]. ring.
Qed.

Lemma rotation_det (ac pc ih : vec3 R) :
  nondegenerate ac pc ih -> det3 (rotation_of ac pc ih) = 1.
Proof.
  intros Hnd. unfold rotation_of, np_vstack, zAxis_of.
  rewrite det3_cross, (xAxis_unit _ _ _ Hnd), (yAxis_unit _ _ (proj1 Hnd)),
    xAxis_orth_yAxis.
  ring.
Qed.

(** The triple of the specification's concrete scenario. *)
Lemma scenario_nondegenerate :
  nondegenerate (V3 0 5 0) (V3 0 (-5) 0) (V3 0 0 10).
Proof.
  split.
  - intros H. injection H as H. lra.
  - intros [k H]. vunfold. injection H as H0 H1 H2. lra.
Qed.

(** ** The transform over the reals *)

Lemma transform_midpoint (ac pc ih : vec3 R) :
  nondegenerate ac pc ih ->
  transformPoint (getMatrixToACPC ac pc ih) (midpoint ac pc) = zero3.
Proof.
  intros Hnd.
  rewrite transformPoint_rigid, (origin_is_midpoint ac pc (proj1 Hnd)).
  destruct (rotation_of ac pc ih) as [[x0 x1 x2] [y0 y1 y2] [z0 z1 z2]].
  destruct (midpoint ac pc) as [m0 m1 m2]. vunfold. f_equal; ring.
Qed.

(** Over the reals.  For a non-degenerate triple, the matrix returned by
    [getMatrixToACPC] applied to the homogeneous midpoint [(ac+pc)/2]
    is the origin, [(0, 0, 0, 1)] in homogeneous coordinates. *)
Theorem midpoint_maps_to_origin (ac pc ih : vec3 R) :
  nondegenerate ac pc ih ->
  mat4_mul_vec (getMatrixToACPC ac pc ih) (homog (midpoint ac pc)) = V4 0 0 0 1
  /\ transformPoint (getMatrixToACPC ac pc ih) (midpoint ac pc) = zero3.
Proof.
  intros Hnd.
  pose proof (transform_midpoint ac pc ih Hnd) as Ht.
  split; [|exact Ht].
  pose proof (homog_row3 ac pc ih (midpoint ac pc)) as H3.
  unfold transformPoint in Ht. cbv zeta in Ht.
  destruct (mat4_mul_vec _ _) as [v0 v1 v2 v3].
  cbn [d0 d1 d2 d3] in *. unfold zero3 in Ht.
  injection Ht as -> -> ->. subst v3. reflexivity.
Qed.

(** Over the reals.  For a non-degenerate triple, the translation of line 43,
    [-R (ac - 0.5 * norm(ac-pc) * yAxis)], which is the fourth column of
    the returned matrix, equals [-R mcp] with [mcp = (ac+pc)/2]: the
    offset-from-[ac] point of the source is the true midpoint. *)
Theorem translation_is_minus_R_mcp (ac pc ih : vec3 R) :
  nondegenerate ac pc ih ->
  np_sub ac (np_dot_s (yAxis_of ac pc) (/ 2 * np_linalg_norm (np_sub ac pc)))
  = midpoint ac pc
  /\ translation_of ac pc ih
     = np_neg (np_dot_mv (rotation_of ac pc ih) (midpoint ac pc))
  /\ trans_col (getMatrixToACPC ac pc ih)
     = np_neg (np_dot_mv (rot_block (getMatrixToACPC ac pc ih)) (midpoint ac pc)).
Proof.
  intros [Hne _].
  pose proof (origin_is_midpoint ac pc Hne) as Ho.
  split; [exact Ho|]. split.
  - unfold translation_of. rewrite Ho. reflexivity.
  - rewrite trans_col_get, rot_block_get. unfold translation_of.
    rewrite Ho. reflexivity.
Qed.

(** Over the reals.  For a non-degenerate triple, the rotation block of the returned
    matrix is orthonormal (each row of unit norm, rows pairwise
    orthogonal) and its determinant is [+1]. *)
Theorem rotation_orthonormal_det1 (ac pc ih : vec3 R) :
  nondegenerate ac pc ih ->
  orthonormal (rot_block (getMatrixToACPC ac pc ih))
  /\ det3 (rot_block (getMatrixToACPC ac pc ih)) = 1.
Proof.
  intros Hnd. rewrite rot_block_get. split.
  - unfold rotation_of, np_vstack. constructor; cbn [r0 r1 r2].
    + apply norm_of_unit, (xAxis_unit _ _ _ Hnd).
    + apply norm_of_unit, (yAxis_unit _ _ (proj1 Hnd)).
    + apply norm_of_unit, (zAxis_unit _ _ _ Hnd).
    + apply xAxis_orth_yAxis.
    + unfold zAxis_of. apply dot_cross_l.
    + unfold zAxis_of. apply dot_cross_r.
  - apply rotation_det, Hnd.
Qed.

Lemma dot_mv_scale (m : mat3 R) (k : R) (v : vec3 R) :
  np_dot_mv m (scale k v)
  = V3 (k * np_dot (r0 m) v) (k * np_dot (r1 m) v) (k * np_dot (r2 m) v).
Proof. unfold np_dot_mv. rewrite !dot_scale_r. reflexivity. Qed.

Lemma rotation_yAxis (ac pc ih : vec3 R) :
  nondegenerate ac pc ih ->
  np_dot (r0 (rotation_of ac pc ih)) (yAxis_of ac pc) = 0
  /\ np_dot (r1 (rotation_of ac pc ih)) (yAxis_of ac pc) = 1
  /\ np_dot (r2 (rotation_of ac pc ih)) (yAxis_of ac pc) = 0.
Proof.
  intros Hnd. unfold rotation_of, np_vstack. cbn [r0 r1 r2].
  split; [apply xAxis_orth_yAxis|].
  split; [apply (yAxis_unit _ _ (proj1 Hnd))|].
  unfold zAxis_of. rewrite dot_comm. apply dot_cross_r.
Qed.

(** Over the reals.  For a non-degenerate triple, [ac] and [pc] are mapped to points
    symmetric about the origin on the anteroposterior axis (the second
    coordinate): [(0, d/2, 0)] and [(0, -d/2, 0)] with [d = |ac - pc| > 0],
    zero on the other two axes. *)
Theorem ac_pc_symmetric_on_axis (ac pc ih : vec3 R) :
  nondegenerate ac pc ih ->
  let d := np_linalg_norm (np_sub ac pc) in
  0 < d
  /\ transformPoint (getMatrixToACPC ac pc ih) ac = V3 0 (d / 2) 0
  /\ transformPoint (getMatrixToACPC ac pc ih) pc = V3 0 (- (d / 2)) 0.
Proof.
  intros Hnd d.
  pose proof (pcAc_norm_pos ac pc (proj1 Hnd)) as Hd. fold d in Hd.
  pose proof (yAxis_rescaled ac pc (proj1 Hnd)) as Hy. fold d in Hy.
  destruct (rotation_yAxis ac pc ih Hnd) as (Hx & Hyy & Hz).
  split; [exact Hd|].
  rewrite !transformPoint_rigid, (origin_is_midpoint ac pc (proj1 Hnd)).
  assert (Ha : np_sub ac (midpoint ac pc) = scale (d / 2) (yAxis_of ac pc)).
  { replace (d / 2) with (/ 2 * d) by field.
    rewrite <- scale_scale, Hy. destruct ac, pc. vunfold. f_equal; field. }
  assert (Hp : np_sub pc (midpoint ac pc) = scale (- (d / 2)) (yAxis_of ac pc)).
  { replace (- (d / 2)) with (- / 2 * d) by field.
    rewrite <- scale_scale, Hy. destruct ac, pc. vunfold. f_equal; field. }
  rewrite Ha, Hp, !dot_mv_scale, Hx, Hyy, Hz.
  split; f_equal; ring.
Qed.

(** *** Swapping [ac] and [pc] *)

Lemma sub_swap (a b : vec3 R) : np_sub b a = np_neg (np_sub a b).
Proof. destruct a, b. vunfold. f_equal; ring. Qed.

Lemma norm_neg (v : vec3 R) : np_linalg_norm (np_neg v) = np_linalg_norm v.
Proof.
  unfold np_linalg_norm. f_equal. destruct v. vunfold. ring.
Qed.

Lemma yAxis_swap (ac pc : vec3 R) : yAxis_of pc ac = np_neg (yAxis_of ac pc).
Proof.
  unfold yAxis_of. cbv zeta. rewrite (sub_swap ac pc), norm_neg.
  destruct (np_sub ac pc). set (n := np_linalg_norm _). clearbody n.
  vunfold. f_equal; unfold Rdiv; ring.
Qed.

Lemma midpoint_swap (ac pc : vec3 R) : midpoint pc ac = midpoint ac pc.
Proof. destruct ac, pc. vunfold. f_equal; field. Qed.

Lemma nondegenerate_swap (ac pc ih : vec3 R) :
  nondegenerate ac pc ih -> nondegenerate pc ac ih.
Proof.
  intros [Hne Hnc]. split; [congruence|].
  intros [k Hk]. apply Hnc. exists (- 1 - k). subst ih.
  destruct ac, pc. vunfold. f_equal; ring.
Qed.

(** The only point a non-degenerate transform sends to the origin is the
    mid-commissural point. *)
Lemma origin_preimage (ac pc ih p : vec3 R) :
  nondegenerate ac pc ih ->
  transformPoint (getMatrixToACPC ac pc ih) p = zero3 <-> p = midpoint ac pc.
Proof.
  intros Hnd. split.
  - rewrite transformPoint_rigid, (origin_is_midpoint ac pc (proj1 Hnd)).
    intros Hz. apply dot_mv_injective in Hz.
    + destruct p, (midpoint ac pc). vunfold. injection Hz as H0 H1 H2.
      f_equal; lra.
    + rewrite (rotation_det _ _ _ Hnd). lra.
  - intros ->. apply (transform_midpoint ac pc ih Hnd).
Qed.

(** Over the reals.  For a non-degenerate triple, [getMatrixToACPC(pc, ac, ih)] has
    the anteroposterior axis row of [getMatrixToACPC(ac, pc, ih)]
    negated, and both transforms send the same point, the mid-commissural
    point and no other, to the origin. *)
Theorem swap_negates_axis_keeps_origin (ac pc ih : vec3 R) :
  nondegenerate ac pc ih ->
  r1 (rot_block (getMatrixToACPC pc ac ih))
  = np_neg (r1 (rot_block (getMatrixToACPC ac pc ih)))
  /\ origin_of pc ac = origin_of ac pc
  /\ (forall p : vec3 R,
        transformPoint (getMatrixToACPC ac pc ih) p = zero3
        <-> p = midpoint ac pc)
  /\ (forall p : vec3 R,
        transformPoint (getMatrixToACPC pc ac ih) p = zero3
        <-> p = midpoint ac pc).
Proof.
  intros Hnd. pose proof (nondegenerate_swap _ _ _ Hnd) as Hnd'.
  split; [|split; [|split]].
  - rewrite !rot_block_get. unfold rotation_of, np_vstack. cbn [r1].
    apply yAxis_swap.
  - rewrite (origin_is_midpoint _ _ (proj1 Hnd)),
      (origin_is_midpoint _ _ (proj1 Hnd')).
    apply midpoint_swap.
  - intros p. apply origin_preimage, Hnd.
  - intros p. rewrite <- (midpoint_swap ac pc). apply origin_preimage, Hnd'.
Qed.

(** *** Moving [ih] along the ray from [ac] *)

Lemma xAxis_raw_ray (ac pc ih : vec3 R) (k : R) :
  xAxis_raw ac pc (np_add ac (scale k (np_sub ih ac)))
  = scale k (xAxis_raw ac pc ih).
Proof.
  unfold xAxis_raw. cbv zeta. rewrite <- cross_scale_r. f_equal.
  destruct ac, ih. vunfold. f_equal; ring.
Qed.

Lemma xAxis_ray (ac pc ih : vec3 R) (k : R) :
  nondegenerate ac pc ih -> 0 < k ->
  xAxis_of ac pc (np_add ac (scale k (np_sub ih ac))) = xAxis_of ac pc ih.
Proof.
  intros Hnd Hk. unfold xAxis_of. cbv zeta.
  rewrite xAxis_raw_ray, norm_scale by lra.
  pose proof (norm_pos _ (xAxis_raw_nonzero _ _ _ Hnd)) as Hn.
  rewrite !div_s_scale, scale_scale. f_equal. field. lra.
Qed.

(** Over the reals.  For a non-degenerate triple and every [k > 0],
    [getMatrixToACPC(ac, pc, ac + k*(ih - ac))] is the matrix
    [getMatrixToACPC(ac, pc, ih)]: only the direction of [ih - ac]
    enters the result. *)
Theorem ih_ray_invariant (ac pc ih : vec3 R) (k : R) :
  nondegenerate ac pc ih -> 0 < k ->
  getMatrixToACPC ac pc (np_add ac (scale k (np_sub ih ac)))
  = getMatrixToACPC ac pc ih.
Proof.
  intros Hnd Hk.
  unfold getMatrixToACPC, translation_of, rotation_of, zAxis_of.
  rewrite (xAxis_ray ac pc ih k Hnd Hk). reflexivity.
Qed.

(** *** The concrete scenario in exact arithmetic *)

Lemma norm_axis1 (d : R) : 0 <= d -> np_linalg_norm (V3 0 d 0) = d.
Proof.
  intros Hd. vunfold. replace (0 * 0 + d * d + 0 * 0) with (d * d) by ring.
  apply sqrt_square, Hd.
Qed.

Lemma norm_axis0 (d : R) : 0 <= d -> np_linalg_norm (V3 d 0 0) = d.
Proof.
  intros Hd. vunfold. replace (d * d + 0 * 0 + 0 * 0) with (d * d) by ring.
  apply sqrt_square, Hd.
Qed.

Lemma scenario_yAxis : yAxis_of (V3 0 5 0) (V3 0 (-5) 0) = V3 0 1 0.
Proof.
  unfold yAxis_of. cbv zeta.
  replace (np_sub (V3 0 5 0) (V3 0 (-5) 0)) with (V3 0 10 0)
    by (vunfold; f_equal; ring).
  rewrite norm_axis1 by lra. vunfold. f_equal; field.
Qed.

Lemma scenario_xAxis :
  xAxis_of (V3 0 5 0) (V3 0 (-5) 0) (V3 0 0 10) = V3 1 0 0.
Proof.
  unfold xAxis_of, xAxis_raw. cbv zeta. rewrite scenario_yAxis.
  replace (np_cross (V3 0 1 0) (np_sub (V3 0 0 10) (V3 0 5 0))) with (V3 10 0 0)
    by (vunfold; f_equal; ring).
  rewrite norm_axis0 by lra. vunfold. f_equal; field.
Qed.

(** Already aligned: the transform is the identity. *)
Lemma scenario_matrix :
  getMatrixToACPC (V3 0 5 0) (V3 0 (-5) 0) (V3 0 0 10)
  = M4 (V4 1 0 0 0) (V4 0 1 0 0) (V4 0 0 1 0) (V4 0 0 0 1).
Proof.
  unfold getMatrixToACPC, translation_of, rotation_of, zAxis_of, origin_of.
  cbv zeta. rewrite scenario_xAxis, scenario_yAxis.
  replace (np_sub (V3 0 5 0) (V3 0 (-5) 0)) with (V3 0 10 0)
    by (vunfold; f_equal; ring).
  rewrite norm_axis1 by lra.
  unfold set_col3, set_block33, np_eye4. vunfold.
  cbn [q0 q1 q2 q3 d0 d1 d2 d3 c0 c1 c2 r0 r1 r2].
  f_equal; f_equal; field.
Qed.

Lemma scenario_transform (p : vec3 R) :
  transformPoint (getMatrixToACPC (V3 0 5 0) (V3 0 (-5) 0) (V3 0 0 10)) p = p.
Proof.
  rewrite scenario_matrix. destruct p as [p0 p1 p2].
  unfold transformPoint, mat4_mul_vec, dot4, homog.
  cbn [q0 q1 q2 q3 d0 d1 d2 d3 c0 c1 c2 sadd smul s0 s1 R_Scalar].
  f_equal; ring.
Qed.

End ExactAlgebra.

(* ===================================================================== *)
(** ** binary64: degenerate inputs *)
(* ===================================================================== *)

Section Float64.
Local Open Scope float_scope.

Lemma Prim2SF_nan : Prim2SF nan = S754_nan.
Proof. reflexivity. Qed.

(** NaN is absorbing: one proof script per operation, through the
    specification of the operation on [spec_float]. *)
Ltac nan_absorbs spec :=
  intros; apply Prim2SF_inj; rewrite spec, ?Prim2SF_nan;
  repeat match goal with |- context [Prim2SF ?y] => destruct (Prim2SF y) end;
  reflexivity.

Lemma mul_nan_l (y : float) : nan * y = nan.
Proof. nan_absorbs mul_spec. Qed.

Lemma mul_nan_r (y : float) : y * nan = nan.
Proof. nan_absorbs mul_spec. Qed.

Lemma add_nan_l (y : float) : nan + y = nan.
Proof. nan_absorbs add_spec. Qed.

Lemma add_nan_r (y : float) : y + nan = nan.
Proof. nan_absorbs add_spec. Qed.

Lemma sub_nan_l (y : float) : nan - y = nan.
Proof. nan_absorbs sub_spec. Qed.

Lemma sub_nan_r (y : float) : y - nan = nan.
Proof. nan_absorbs sub_spec. Qed.

(** [x - x] is [+0] for a finite [x] and NaN for an infinity or a NaN. *)
Lemma sub_diag64 (x : float) : x - x = 0 \/ x - x = nan.
Proof.
  destruct (Prim2SF x) as [s|s| |s m e] eqn:E.
  - left. apply Prim2SF_inj. rewrite sub_spec, E. destruct s; reflexivity.
  - right. apply Prim2SF_inj. rewrite sub_spec, E. destruct s; reflexivity.
  - right. apply Prim2SF_inj. rewrite sub_spec, E. reflexivity.
  - left. apply Prim2SF_inj. rewrite sub_spec, E.
    unfold SF64sub, SFsub. cbv zeta. rewrite Z.sub_diag. reflexivity.
Qed.

Ltac funfold :=
  unfold np_linalg_norm, np_dot_mv, np_vstack, np_cross, np_dot, np_neg,
    np_dot_s, np_div_s, np_add, np_sub, nan3, nan4;
  cbn [c0 c1 c2 r0 r1 r2 sadd ssub smul sdiv sneg ssqrt s0 s1 shalf
       float_Scalar].

(** Normalising the zero-length vector [ac - ac]: [0/0] in every
    component. *)
Lemma yAxis_same_point (a : vec3 float) : yAxis_of a a = nan3.
Proof.
  destruct a as [a0 a1 a2]. unfold yAxis_of. cbv zeta. funfold.
  destruct (sub_diag64 a0) as [-> | ->], (sub_diag64 a1) as [-> | ->],
    (sub_diag64 a2) as [-> | ->]; reflexivity.
Qed.

Lemma cross_nan_l (d : vec3 float) : np_cross nan3 d = nan3.
Proof. funfold. rewrite !mul_nan_l, !sub_nan_l. reflexivity. Qed.

Lemma normalize_nan : np_div_s nan3 (np_linalg_norm nan3) = nan3.
Proof. reflexivity. Qed.

(** Normalising a zero cross product: [0/0] in every component. *)
Lemma normalize_zero_vec (w : vec3 float) :
  zero_vec w -> np_div_s w (np_linalg_norm w) = nan3.
Proof.
  destruct w as [w0 w1 w2]. unfold zero_vec, is_zero. cbn [c0 c1 c2].
  intros ([-> | ->] & [-> | ->] & [-> | ->]); reflexivity.
Qed.

Lemma xAxis_same_point (a ih : vec3 float) : xAxis_of a a ih = nan3.
Proof.
  unfold xAxis_of, xAxis_raw. cbv zeta.
  rewrite yAxis_same_point, cross_nan_l. apply normalize_nan.
Qed.

(** With [ac == pc] nothing finite is left above the bottom row. *)
Lemma same_point_all_nan (a ih : vec3 float) :
  getMatrixToACPC a a ih = M4 nan4 nan4 nan4 (V4 0 0 0 1).
Proof.
  unfold getMatrixToACPC, translation_of, rotation_of, zAxis_of, origin_of.
  cbv zeta. rewrite xAxis_same_point, yAxis_same_point.
  destruct a as [a0 a1 a2]. funfold.
  unfold set_col3, set_block33, np_eye4.
  cbn [q0 q1 q2 q3 d0 d1 d2 d3 c0 c1 c2 r0 r1 r2 s0 s1 float_Scalar].
  rewrite ?mul_nan_l, ?sub_nan_r, ?mul_nan_r, ?add_nan_r. reflexivity.
Qed.

(** C4, as stated, fails: on [ac == pc] and on [ih] on the AC-PC line the
    function raises nothing and returns a matrix that contains NaN.
    Here [ac = pc = (1,2,3)], and [ac = (0,1,0)], [pc = (0,-1,0)],
    [ih = ac + 1*(ac - pc) = (0,3,0)]. *)
Lemma degenerate_input_returns_nan :
  getMatrixToACPC (V3 1 2 3) (V3 1 2 3) (V3 4 5 6)
  = M4 nan4 nan4 nan4 (V4 0 0 0 1)
  /\ has_nan (getMatrixToACPC (V3 1 2 3) (V3 1 2 3) (V3 4 5 6)) = true
  /\ getMatrixToACPC (V3 0 1 0) (V3 0 (-1) 0) (V3 0 3 0)
     = M4 nan4 (V4 0 1 0 (-0)) nan4 (V4 0 0 0 1)
  /\ has_nan (getMatrixToACPC (V3 0 1 0) (V3 0 (-1) 0) (V3 0 3 0)) = true.
Proof. repeat split; vm_compute; reflexivity. Qed.

End Float64.

(* ===================================================================== *)
(** ** The concrete scenario of the specification *)
(* ===================================================================== *)

(** C8. For [ac = (0,5,0)], [pc = (0,-5,0)], [ih = (0,0,10)]:
    [yAxis = (0,1,0)]; the returned transform maps [ac] to [(0,5,0)] and
    [pc] to [(0,-5,0)], and [ih] to a point whose component on the
    anteroposterior axis is zero.  Stated on binary64, where the code is
    evaluated, and in exact arithmetic. *)
Theorem scenario_aligned :
  (let ac := V3 0 5 0 in
   let pc := V3 0 (-5) 0 in
   let ih := V3 0 0 10 in
   yAxis_of ac pc = V3 0 1 0
   /\ transformPoint (getMatrixToACPC ac pc ih) ac = V3 0 5 0
   /\ transformPoint (getMatrixToACPC ac pc ih) pc = V3 0 (-5) 0
   /\ c1 (transformPoint (getMatrixToACPC ac pc ih) ih) = 0)%float
  /\
  (let ac := V3 0 5 0 in
   let pc := V3 0 (-5) 0 in
   let ih := V3 0 0 10 in
   yAxis_of ac pc = V3 0 1 0
   /\ transformPoint (getMatrixToACPC ac pc ih) ac = V3 0 5 0
   /\ transformPoint (getMatrixToACPC ac pc ih) pc = V3 0 (-5) 0
   /\ c1 (transformPoint (getMatrixToACPC ac pc ih) ih) = 0)%R.
Proof.
  split.
  - cbv zeta. repeat split; vm_compute; reflexivity.
  - cbv zeta. rewrite !scenario_transform. repeat split.
    apply scenario_yAxis.
Qed.

(* ===================================================================== *)
(** ** [myLogic.run]: how many landmarks, and which *)
(* ===================================================================== *)

Section RunProps.
Context {A : Type} `{Scalar A}.

(** From the fourth landmark on, an iteration assigns nothing. *)
Lemma run_body_beyond (acpcFid : list (vec3 A)) (st : run_locals A) (i : nat) :
  3 <= i -> run_body acpcFid st i = st.
Proof.
  intros Hi. destruct i as [|[|[|i]]]; try lia. reflexivity.
Qed.

Lemma run_loop_beyond (acpcFid : list (vec3 A)) (n start : nat)
    (st : run_locals A) :
  3 <= start -> fold_left (run_body acpcFid) (seq start n) st = st.
Proof.
  revert start st. induction n as [|n IH]; intros start st Hs; [reflexivity|].
  cbn [seq fold_left]. rewrite run_body_beyond by exact Hs.
  apply IH. lia.
Qed.

Lemma run_loop_three (ac pc ih : vec3 A) (rest : list (vec3 A)) :
  run_loop (ac :: pc :: ih :: rest) = Locals (Some ac) (Some pc) (Some ih).
Proof.
  unfold run_loop. cbn [List.length seq fold_left].
  rewrite run_loop_beyond by lia. reflexivity.
Qed.

(** C7, amended.  [run] validates nothing.  With fewer than three
    landmarks the call of line 201 fails on the first of [ac], [pc], [ih]
    the loop left unbound (an [UnboundLocalError], before any matrix is
    computed); with three or more, the landmarks after the third are
    ignored and the matrix of the first three is computed, whatever their
    coordinates. *)
Theorem run_by_landmark_count (acpcFid : list (vec3 A)) :
  match acpcFid with
  | [] => run acpcFid = Raise (UnboundLocalError "ac")
  | [_] => run acpcFid = Raise (UnboundLocalError "pc")
  | [_; _] => run acpcFid = Raise (UnboundLocalError "ih")
  | ac :: pc :: ih :: _ => run acpcFid = Ok (getMatrixToACPC ac pc ih)
  end.
Proof.
  destruct acpcFid as [|ac [|pc [|ih rest]]]; try reflexivity.
  unfold run. cbv zeta. rewrite run_loop_three. reflexivity.
Qed.

End RunProps.

(** C7, as stated, fails: four landmarks, and a landmark with an
    infinite coordinate, are not rejected; a matrix is computed (from the
    first three of the four; full of NaN for the infinite one). *)
Lemma invalid_input_not_rejected :
  (run [V3 0 5 0; V3 0 (-5) 0; V3 0 0 10; V3 1 1 1]
   = Ok (M4 (V4 1 0 (-0) (-0)) (V4 0 1 0 (-0)) (V4 0 (-0) 1 (-0)) (V4 0 0 0 1))
   /\ run [V3 infinity 0 0; V3 0 (-5) 0; V3 0 0 10]
      = Ok (M4 nan4 (V4 nan 0 0 nan) nan4 (V4 0 0 0 1)))%float.
Proof. split; vm_compute; reflexivity. Qed.

(* ===================================================================== *)
(** ** [getMatrixToACPC] and the arrays it is given *)
(* ===================================================================== *)

Section StoreProps.
Context {A : Type} `{Scalar A}.
Implicit Types (h l : list (ndarray A)) (r k : nat) (a : ndarray A).

(** The store during a call is the caller's store [h] followed by the
    arrays [l] the call has allocated so far. *)
Lemma lookup_old h l r a : h !! r = Some a -> (h ++ l) !! r = Some a.
Proof. intros Hr. apply lookup_app_l_Some. exact Hr. Qed.

Lemma lookup_new h l k : (h ++ l) !! (List.length h + k) = l !! k.
Proof. rewrite lookup_app_r by lia. f_equal. lia. Qed.

Lemma alloc_app h l a :
  alloc a (h ++ l) = Some (List.length h + List.length l, h ++ (l ++ [a])).
Proof. unfold alloc. rewrite length_app, <- app_assoc. reflexivity. Qed.

Lemma load3_old h l r (v : vec3 A) :
  h !! r = Some (Arr3 v) -> load3 r (h ++ l) = Some (v, h ++ l).
Proof. intros Hr. unfold load3. rewrite (lookup_old _ _ _ _ Hr). reflexivity. Qed.

Lemma load3_new h l k (v : vec3 A) :
  l !! k = Some (Arr3 v) -> load3 (List.length h + k) (h ++ l) = Some (v, h ++ l).
Proof. intros Hk. unfold load3. rewrite lookup_new, Hk. reflexivity. Qed.

Lemma load33_new h l k (m : mat3 A) :
  l !! k = Some (Arr33 m) -> load33 (List.length h + k) (h ++ l) = Some (m, h ++ l).
Proof. intros Hk. unfold load33. rewrite lookup_new, Hk. reflexivity. Qed.

Lemma load44_new h l k (m : mat4 A) :
  l !! k = Some (Arr44 m) -> load44 (List.length h + k) (h ++ l) = Some (m, h ++ l).
Proof. intros Hk. unfold load44. rewrite lookup_new, Hk. reflexivity. Qed.

(** An update in place of an array of the call leaves [h] as it is. *)
Lemma store_new h l k a :
  k < List.length l ->
  store (List.length h + k) a (h ++ l) = Some (tt, h ++ <[k := a]> l).
Proof.
  intros Hk. unfold store.
  replace (Nat.ltb _ _) with true.
  2:{ symmetry. apply Nat.ltb_lt. rewrite length_app. lia. }
  rewrite insert_app_r. reflexivity.
Qed.

Lemma bind_eq {X Y : Type} (c : St A X) (f : X -> St A Y) h (x : X) h' :
  c h = Some (x, h') -> st_bind c f h = f x h'.
Proof. intros Hc. unfold st_bind. rewrite Hc. reflexivity. Qed.

(** Symbolic execution of a straight-line program on [h ++ l]. *)
Ltac run_st :=
  lazymatch goal with
  | |- st_bind _ _ _ = _ =>
      erewrite bind_eq; [ | run_st ]; cbn beta; run_st
  | |- alloc _ _ = _ => apply alloc_app
  | |- load3 _ _ = _ =>
      first [ apply load3_new; reflexivity | apply load3_old; eassumption ]
  | |- load33 _ _ = _ => apply load33_new; reflexivity
  | |- load44 _ _ = _ => apply load44_new; reflexivity
  | |- store _ _ _ = _ => apply store_new; cbn; lia
  | |- st_ret _ _ = _ => reflexivity
  end.

(** C9. Called on any store in which [ac], [pc] and [ih] refer to
    3-vectors, [getMatrixToACPC] returns; the array it returns is a new
    one, holding the matrix computed from the three vectors; and every
    array that existed before the call, the three inputs among them, is
    afterwards what it was before: the statements that update in place
    ([xAxis /= ...], [matrix[:3,:3] = ...], [matrix[:3,3] = ...]) all
    update arrays the call itself has allocated. *)
Theorem call_leaves_store_unchanged (h : list (ndarray A)) (ac pc ih : ref)
    (a p i : vec3 A) :
  h !! ac = Some (Arr3 a) -> h !! pc = Some (Arr3 p) -> h !! ih = Some (Arr3 i) ->
  exists (m : ref) (h' : list (ndarray A)),
    getMatrixToACPC_st ac pc ih h = Some (m, h')
    /\ h' !! m = Some (Arr44 (getMatrixToACPC a p i))
    /\ List.length h <= m
    /\ (exists l, h' = h ++ l)
    /\ (forall r x, h !! r = Some x -> h' !! r = Some x).
Proof.
  intros Ha Hp Hi.
  eassert (Hrun : getMatrixToACPC_st ac pc ih (h ++ []) = Some (_, h ++ _)).
  { unfold getMatrixToACPC_st, py_sub, py_norm, py_div_s, py_idiv_s, py_cross,
      py_vstack, py_dot_s, py_dot_mv, py_neg, py_eye4, py_set_block33,
      py_set_col3.
    run_st. }
  rewrite app_nil_r in Hrun.
  eexists _, _. split; [exact Hrun|].
  split; [rewrite lookup_new; reflexivity|].
  split; [lia|].
  split; [eexists; reflexivity|].
  intros r x Hr. apply lookup_old. exact Hr.
Qed.

End StoreProps.

Lemma call_leaves_store_unchanged_witness :
  ([Arr3 (V3 0 5 0); Arr3 (V3 0 (-5) 0); Arr3 (V3 0 0 10)] !! 0%nat
     = Some (Arr3 (V3 0 5 0))
   /\ [Arr3 (V3 0 5 0); Arr3 (V3 0 (-5) 0); Arr3 (V3 0 0 10)] !! 1%nat
     = Some (Arr3 (V3 0 (-5) 0))
   /\ [Arr3 (V3 0 5 0); Arr3 (V3 0 (-5) 0); Arr3 (V3 0 0 10)] !! 2%nat
     = Some (Arr3 (V3 0 0 10))
   /\ exists (m : ref) (h' : list (ndarray float)),
       getMatrixToACPC_st 0%nat 1%nat 2%nat
         [Arr3 (V3 0 5 0); Arr3 (V3 0 (-5) 0); Arr3 (V3 0 0 10)] = Some (m, h')
       /\ h' !! m
          = Some (Arr44 (getMatrixToACPC (V3 0 5 0) (V3 0 (-5) 0) (V3 0 0 10)))
       /\ (3 <= m)%nat
       /\ (exists l, h' = [Arr3 (V3 0 5 0); Arr3 (V3 0 (-5) 0); Arr3 (V3 0 0 10)] ++ l)
       /\ (forall r x,
             [Arr3 (V3 0 5 0); Arr3 (V3 0 (-5) 0); Arr3 (V3 0 0 10)] !! r = Some x ->
             h' !! r = Some x))%float.
Proof.
  repeat (split; [reflexivity|]).
  exact (call_leaves_store_unchanged
           [Arr3 (V3 0 5 0); Arr3 (V3 0 (-5) 0); Arr3 (V3 0 0 10)] 0%nat 1%nat 2%nat
           (V3 0 5 0) (V3 0 (-5) 0) (V3 0 0 10) eq_refl eq_refl eq_refl)%float.
Defined.

(* ===================================================================== *)
(** ** [myLogic.run]: what reaches the scene *)
(* ===================================================================== *)

Section SceneProps.
Context {A : Type} `{Scalar A} `{ScalarNe A}.

(** Reading a cell after [SetElement]: the cell written, any other
    cell. *)
Lemma get_SetElement_hit (v : mat4 A) (row col : idx4) (x : A) :
  np_getitem (SetElement v row col x) row col
  = vtk_keep (np_getitem v row col) x.
Proof.
  unfold SetElement, vtk_keep. destruct (sne _ _); [|reflexivity].
  destruct v as [[? ? ? ?] [? ? ? ?] [? ? ? ?] [? ? ? ?]].
  destruct row, col; reflexivity.
Qed.

Lemma get_SetElement_miss (v : mat4 A) (row col row' col' : idx4) (x : A) :
  (row, col) <> (row', col') ->
  np_getitem (SetElement v row col x) row' col' = np_getitem v row' col'.
Proof.
  intros Hne. unfold SetElement. destruct (sne _ _); [|reflexivity].
  destruct v as [[? ? ? ?] [? ? ? ?] [? ? ? ?] [? ? ? ?]].
  destruct row, col, row', col'; try reflexivity; contradiction Hne; reflexivity.
Qed.

(** The double loop of lines 203-205 visits all sixteen cells, each
    once: afterwards every cell of the [vtkMatrix] holds what
    [SetElement] leaves there when given the element of [matrix] at the
    same place, that element if the cell held a different value, the old
    content if it did not. *)
Lemma copy_into_elements (matrix vtkMatrix : mat4 A) (row col : idx4) :
  np_getitem (copy_into matrix vtkMatrix) row col
  = vtk_keep (np_getitem vtkMatrix row col) (np_getitem matrix row col).
Proof.
  unfold copy_into, copy_row, copy_element, range4. cbn [fold_left].
  destruct row, col;
    repeat first [ rewrite get_SetElement_hit
                 | rewrite get_SetElement_miss by (intros ?; discriminate) ];
    reflexivity.
Qed.

Lemma run_short (acpcFid : list (vec3 A)) :
  List.length acpcFid < 3 ->
  exists name : string, run acpcFid = Raise (UnboundLocalError name).
Proof.
  intros Hlen. destruct acpcFid as [|ac [|pc [|ih rest]]].
  - eexists; reflexivity.
  - eexists; reflexivity.
  - eexists; reflexivity.
  - cbn [List.length] in Hlen. lia.
Qed.

Lemma run_three (ac pc ih : vec3 A) (rest : list (vec3 A)) :
  run (ac :: pc :: ih :: rest) = Ok (getMatrixToACPC ac pc ih).
Proof. unfold run. cbv zeta. rewrite run_loop_three. reflexivity. Qed.

(** With fewer than three landmarks [run] ends in the
    [UnboundLocalError] of line 201 before it has made any call on the
    scene: no node is changed, whatever nodes were passed and whether or
    not hardening was asked for. *)
Theorem short_markup_changes_nothing (fid : MarkupsNode A)
    (volumeNode transformNode : option string) (autoHarden : bool) :
  List.length (markups_points fid) < 3 ->
  exists name : string,
    run_scene (Some fid) volumeNode transformNode autoHarden
    = ([], Some (LocalError (UnboundLocalError name))).
Proof.
  intros Hlen. destruct (run_short _ Hlen) as [name Hrun].
  exists name. unfold run_scene. rewrite Hrun. reflexivity.
Qed.

(** With three landmarks or more and all three nodes present, [run]
    returns normally after exactly these calls, in this order: the
    transform node receives the [vtkMatrix4x4] into which lines 202-205
    copied the matrix [getMatrixToACPC] computes from the first three
    landmarks; the markup, then the volume, are put under that
    transform; and, only if [autoHarden] is set, the transform is
    hardened on the markup, then on the volume. *)
Theorem run_scene_calls (fid_id vol tn : string) (ac pc ih : vec3 A)
    (rest : list (vec3 A)) (autoHarden : bool) :
  run_scene (Some (Markups fid_id (ac :: pc :: ih :: rest))) (Some vol) (Some tn)
    autoHarden
  = ([SetAndObserveMatrixTransformToParent tn
        (copy_into (getMatrixToACPC ac pc ih) vtkMatrix4x4);
      SetAndObserveTransformNodeID fid_id tn;
      SetAndObserveTransformNodeID vol tn]
     ++ (if autoHarden then [hardenTransform fid_id; hardenTransform vol] else []),
     None).
Proof.
  unfold run_scene. cbn [markups_points markups_id].
  rewrite run_three. destruct autoHarden; reflexivity.
Qed.

(** A node that is [None], the markup having three landmarks or more.
    With no transform node, [run] fails on line 208 before any call on
    the scene.  With a transform node but no volume node, it fails on
    line 212, after the transform node has received the copied matrix and
    the markup has been put under it: these two changes stay. *)
Theorem missing_node_effects (fid_id : string) (ac pc ih : vec3 A)
    (rest : list (vec3 A)) (volumeNode : option string) (tn : string)
    (autoHarden : bool) :
  run_scene (Some (Markups fid_id (ac :: pc :: ih :: rest))) volumeNode None
    autoHarden
  = ([], Some (AttributeError "SetAndObserveMatrixTransformToParent"))
  /\ run_scene (Some (Markups fid_id (ac :: pc :: ih :: rest))) None (Some tn)
       autoHarden
     = ([SetAndObserveMatrixTransformToParent tn
           (copy_into (getMatrixToACPC ac pc ih) vtkMatrix4x4);
         SetAndObserveTransformNodeID fid_id tn],
        Some (AttributeError "SetAndObserveTransformNodeID")).
Proof.
  unfold run_scene. cbn [markups_points markups_id].
  rewrite run_three. split; reflexivity.
Qed.

End SceneProps.

Lemma short_markup_changes_nothing_witness :
  (List.length (markups_points (Markups "F" [V3 0 5 0; V3 0 (-5) 0]%float)) < 3)%nat
  /\ exists name : string,
      run_scene (Some (Markups "F" [V3 0 5 0; V3 0 (-5) 0]%float)) (Some "V"%string)
        (Some "T"%string) true
      = ([], Some (LocalError (UnboundLocalError name))).
Proof.
  split; [cbn; lia|].
  apply (short_markup_changes_nothing
           (Markups "F" [V3 0 5 0; V3 0 (-5) 0]%float)). cbn. lia.
Defined.

(* ===================================================================== *)
(** ** binary64: NaN among the landmark coordinates *)
(* ===================================================================== *)

Section Float64Inputs.
Local Open Scope float_scope.

Ltac nan_absorbs spec :=
  intros; apply Prim2SF_inj; rewrite spec, ?Prim2SF_nan;
  repeat match goal with |- context [Prim2SF ?y] => destruct (Prim2SF y) end;
  reflexivity.

Ltac funfold :=
  unfold np_linalg_norm, np_dot_mv, np_vstack, np_cross, np_dot, np_neg,
    np_dot_s, np_div_s, np_add, np_sub, nan3, nan4;
  cbn [c0 c1 c2 r0 r1 r2 sadd ssub smul sdiv sneg ssqrt s0 s1 shalf
       float_Scalar].

Lemma div_nan_r (y : float) : y / nan = nan.
Proof. nan_absorbs div_spec. Qed.

(** binary64 has one NaN. *)
Lemma is_nan_eq (x : float) : is_nan x = true -> x = nan.
Proof.
  unfold is_nan. rewrite FloatAxioms.eqb_spec. intros Hx. apply Prim2SF_inj.
  rewrite Prim2SF_nan.
  destruct (Prim2SF x) as [s|s| |s m e]; try reflexivity.
  - destruct s; discriminate.
  - destruct s; discriminate.
  - exfalso. revert Hx. unfold SFeqb, SFcompare.
    destruct s; rewrite Z.compare_refl, ?Pos.compare_cont_refl; cbn;
      rewrite ?Pos.compare_cont_refl; cbn; discriminate.
Qed.

Lemma vec_has_nan_cases (v : vec3 float) :
  vec_has_nan v = true -> c0 v = nan \/ c1 v = nan \/ c2 v = nan.
Proof.
  unfold vec_has_nan. intros Hv.
  apply orb_true_iff in Hv as [Hv|Hv]; [apply orb_true_iff in Hv as [Hv|Hv]|];
    apply is_nan_eq in Hv; auto.
Qed.

Lemma norm_has_nan (v : vec3 float) :
  vec_has_nan v = true -> np_linalg_norm v = nan.
Proof.
  intros Hv. apply vec_has_nan_cases in Hv. destruct v as [v0 v1 v2].
  cbn [c0 c1 c2] in Hv. funfold.
  destruct Hv as [-> | [-> | ->]];
    repeat first [rewrite mul_nan_l | rewrite add_nan_l | rewrite add_nan_r];
    reflexivity.
Qed.

Lemma normalize_has_nan (v : vec3 float) :
  vec_has_nan v = true -> np_div_s v (np_linalg_norm v) = nan3.
Proof.
  intros Hv. rewrite (norm_has_nan v Hv). destruct v as [v0 v1 v2]. funfold.
  rewrite !div_nan_r. reflexivity.
Qed.

Lemma sub_has_nan_l (a b : vec3 float) :
  vec_has_nan a = true -> vec_has_nan (np_sub a b) = true.
Proof.
  intros Ha. apply vec_has_nan_cases in Ha. destruct a as [a0 a1 a2], b as [b0 b1 b2].
  cbn [c0 c1 c2] in Ha. unfold vec_has_nan. funfold.
  destruct Ha as [-> | [-> | ->]]; rewrite sub_nan_l;
    change (is_nan nan) with true; rewrite ?orb_true_r; reflexivity.
Qed.

Lemma sub_has_nan_r (a b : vec3 float) :
  vec_has_nan b = true -> vec_has_nan (np_sub a b) = true.
Proof.
  intros Hb. apply vec_has_nan_cases in Hb. destruct a as [a0 a1 a2], b as [b0 b1 b2].
  cbn [c0 c1 c2] in Hb. unfold vec_has_nan. funfold.
  destruct Hb as [-> | [-> | ->]]; rewrite sub_nan_r;
    change (is_nan nan) with true; rewrite ?orb_true_r; reflexivity.
Qed.

Lemma cross_has_nan_r (y d : vec3 float) :
  vec_has_nan d = true -> vec_has_nan (np_cross y d) = true.
Proof.
  intros Hd. apply vec_has_nan_cases in Hd. destruct y as [y0 y1 y2], d as [e0 e1 e2].
  cbn [c0 c1 c2] in Hd. unfold vec_has_nan. funfold.
  destruct Hd as [-> | [-> | ->]];
    repeat first [rewrite mul_nan_r | rewrite sub_nan_l | rewrite sub_nan_r];
    change (is_nan nan) with true; rewrite ?orb_true_r; reflexivity.
Qed.

Lemma xAxis_raw_has_nan (ac pc ih : vec3 float) :
  vec_has_nan ac || vec_has_nan pc || vec_has_nan ih = true ->
  vec_has_nan (xAxis_raw ac pc ih) = true.
Proof.
  intros Hin. unfold xAxis_raw. cbv zeta.
  assert (Hy : vec_has_nan (np_sub ac pc) = true ->
               vec_has_nan (np_cross (yAxis_of ac pc) (np_sub ih ac)) = true).
  { intros Hs. unfold yAxis_of. cbv zeta.
    rewrite (normalize_has_nan _ Hs), cross_nan_l. reflexivity. }
  apply orb_true_iff in Hin as [Hin|Hin];
    [apply orb_true_iff in Hin as [Hin|Hin]|].
  - destruct (vec_has_nan ih) eqn:Hih.
    + apply cross_has_nan_r, sub_has_nan_l, Hih.
    + apply Hy, sub_has_nan_l, Hin.
  - apply Hy, sub_has_nan_r, Hin.
  - apply cross_has_nan_r, sub_has_nan_l, Hin.
Qed.

(** A NaN in any coordinate of any of the three landmarks is not
    detected: the lateral-axis row of the returned matrix is NaN in every
    entry, so the returned matrix contains NaN. *)
Theorem nan_input_gives_nan_matrix (ac pc ih : vec3 float) :
  vec_has_nan ac || vec_has_nan pc || vec_has_nan ih = true ->
  r0 (rot_block (getMatrixToACPC ac pc ih)) = nan3
  /\ has_nan (getMatrixToACPC ac pc ih) = true.
Proof.
  intros Hin.
  assert (Hx : xAxis_of ac pc ih = nan3).
  { unfold xAxis_of. cbv zeta.
    apply normalize_has_nan, xAxis_raw_has_nan, Hin. }
  split.
  - rewrite rot_block_get. exact Hx.
  - assert (Hq : d0 (q0 (getMatrixToACPC ac pc ih)) = c0 (xAxis_of ac pc ih))
      by reflexivity.
    unfold has_nan, row_has_nan. rewrite Hq, Hx. reflexivity.
Qed.

Lemma nan_input_gives_nan_matrix_witness :
  vec_has_nan (V3 0 5 0) || vec_has_nan (V3 0 (-5) 0) || vec_has_nan (V3 0 nan 10)
  = true
  /\ has_nan (getMatrixToACPC (V3 0 5 0) (V3 0 (-5) 0) (V3 0 nan 10)) = true.
Proof.
  split; [reflexivity|].
  exact (proj2 (nan_input_gives_nan_matrix (V3 0 5 0) (V3 0 (-5) 0) (V3 0 nan 10)
                  eq_refl)).
Defined.

End Float64Inputs.

(* ===================================================================== *)
(** ** binary64: coincident landmarks *)
(* ===================================================================== *)

Section Float64Degenerate.
Local Open Scope float_scope.

Ltac funfold :=
  unfold np_linalg_norm, np_dot_mv, np_vstack, np_cross, np_dot, np_neg,
    np_dot_s, np_div_s, np_add, np_sub, nan3, nan4;
  cbn [c0 c1 c2 r0 r1 r2 sadd ssub smul sdiv sneg ssqrt s0 s1 shalf
       float_Scalar].

(** Case analysis on the classes of the operands, through the
    specification of the operation. *)
Ltac by_class spec :=
  unfold zero_or_nan in *; rewrite spec;
  repeat match goal with
         | H : context [Prim2SF ?y] |- _ => destruct (Prim2SF y) as [[|]|[|]| |[|] ? ?]
         | |- context [Prim2SF ?y] => destruct (Prim2SF y) as [[|]|[|]| |[|] ? ?]
         end;
  try contradiction; try exact I; try reflexivity.

(** [x == y] holds of equal numbers and of two zeros, and of nothing
    else. *)
Lemma eqb_cases (x y : float) :
  (x =? y) = true -> same_up_to_zero_sign x y.
Proof.
  rewrite FloatAxioms.eqb_spec. intros Hxy. unfold same_up_to_zero_sign.
  destruct (Prim2SF x) as [sx|sx| |sx mx ex] eqn:Ex,
           (Prim2SF y) as [sy|sy| |sy my ey] eqn:Ey;
    unfold SFeqb, SFcompare in Hxy;
    try discriminate; try (destruct sx; discriminate);
    try (destruct sy; discriminate).
  - right. exact I.
  - left. apply Prim2SF_inj. rewrite Ex, Ey.
    destruct sx, sy; try discriminate; reflexivity.
  - left. apply Prim2SF_inj. rewrite Ex, Ey.
    destruct sx, sy; try discriminate;
      destruct (Z.compare ex ey) eqn:Ec; try discriminate;
      apply Z.compare_eq in Ec; subst ey;
      destruct (Pos.compare_cont Eq mx my) eqn:Em; try discriminate;
      apply Pos.compare_eq in Em; subst my; reflexivity.
Qed.

Lemma sub_eqb (a b : float) : (a =? b) = true -> zero_or_nan (a - b).
Proof.
  intros Hab. destruct (eqb_cases a b Hab) as [<- | Hz].
  - destruct (sub_diag64 a) as [-> | ->]; exact I.
  - unfold zero_or_nan. rewrite sub_spec.
    destruct (Prim2SF a) as [[|]|[|]| |[|] ? ?]; try contradiction;
      destruct (Prim2SF b) as [[|]|[|]| |[|] ? ?]; try contradiction; exact I.
Qed.

Lemma zn_mul (a b : float) : zero_or_nan a -> zero_or_nan b -> zero_or_nan (a * b).
Proof. intros Ha Hb. revert Ha Hb. by_class mul_spec. Qed.

Lemma zn_mul_r (y d : float) : zero_or_nan d -> zero_or_nan (y * d).
Proof. intros Hd. revert Hd. by_class mul_spec. Qed.

Lemma zn_add (a b : float) : zero_or_nan a -> zero_or_nan b -> zero_or_nan (a + b).
Proof. intros Ha Hb. revert Ha Hb. by_class add_spec. Qed.

Lemma zn_sub (a b : float) : zero_or_nan a -> zero_or_nan b -> zero_or_nan (a - b).
Proof. intros Ha Hb. revert Ha Hb. by_class sub_spec. Qed.

Lemma zn_sqrt (a : float) : zero_or_nan a -> zero_or_nan (sqrt a).
Proof. intros Ha. revert Ha. by_class sqrt_spec. Qed.

Lemma zn_div (a n : float) : zero_or_nan a -> zero_or_nan n -> a / n = nan.
Proof.
  intros Ha Hn. apply Prim2SF_inj. rewrite Prim2SF_nan. revert Ha Hn.
  by_class div_spec.
Qed.

Lemma vec_eqb_cases (a b : vec3 float) :
  vec_eqb a b = true ->
  (c0 a =? c0 b) = true /\ (c1 a =? c1 b) = true /\ (c2 a =? c2 b) = true.
Proof.
  unfold vec_eqb. intros Hab.
  apply andb_true_iff in Hab as [Hab H2]. apply andb_true_iff in Hab as [H0 H1].
  auto.
Qed.

(** Normalising a vector whose components are zeros or NaN: NaN in
    every component. *)
Lemma normalize_zero_or_nan (w : vec3 float) :
  zero_or_nan (c0 w) -> zero_or_nan (c1 w) -> zero_or_nan (c2 w) ->
  np_div_s w (np_linalg_norm w) = nan3.
Proof.
  destruct w as [w0 w1 w2]. cbn [c0 c1 c2]. intros H0 H1 H2.
  assert (Hn : zero_or_nan (np_linalg_norm (V3 w0 w1 w2))).
  { funfold. apply zn_sqrt. repeat apply zn_add; apply zn_mul; assumption. }
  unfold np_div_s. cbn [c0 c1 c2 sdiv float_Scalar].
  rewrite !zn_div by assumption. reflexivity.
Qed.

Lemma yAxis_coincident (ac pc : vec3 float) :
  vec_eqb ac pc = true -> yAxis_of ac pc = nan3.
Proof.
  intros Hab. apply vec_eqb_cases in Hab as (H0 & H1 & H2).
  unfold yAxis_of. cbv zeta. apply normalize_zero_or_nan;
    destruct ac, pc; apply sub_eqb; assumption.
Qed.

Lemma xAxis_ih_on_ac (ac pc ih : vec3 float) :
  vec_eqb ih ac = true -> xAxis_of ac pc ih = nan3.
Proof.
  intros Hia. apply vec_eqb_cases in Hia as (H0 & H1 & H2).
  unfold xAxis_of, xAxis_raw. cbv zeta.
  destruct (yAxis_of ac pc) as [y0 y1 y2], ih as [i0 i1 i2], ac as [a0 a1 a2].
  cbn [c0 c1 c2] in *.
  apply normalize_zero_or_nan; funfold;
    apply zn_sub; apply zn_mul_r; apply sub_eqb; assumption.
Qed.

(** Once [yAxis] is NaN nothing finite is left above the bottom row. *)
Lemma yAxis_nan_all_nan (ac pc ih : vec3 float) :
  yAxis_of ac pc = nan3 ->
  getMatrixToACPC ac pc ih = M4 nan4 nan4 nan4 (V4 0 0 0 1).
Proof.
  intros Hy.
  assert (Hx : xAxis_of ac pc ih = nan3).
  { unfold xAxis_of, xAxis_raw. cbv zeta. rewrite Hy, cross_nan_l.
    apply normalize_nan. }
  unfold getMatrixToACPC, translation_of, rotation_of, zAxis_of, origin_of.
  cbv zeta. rewrite Hx, Hy.
  destruct ac as [a0 a1 a2]. funfold.
  unfold set_col3, set_block33, np_eye4.
  cbn [q0 q1 q2 q3 d0 d1 d2 d3 c0 c1 c2 r0 r1 r2 s0 s1 float_Scalar].
  rewrite ?mul_nan_l, ?sub_nan_r, ?mul_nan_r, ?add_nan_r. reflexivity.
Qed.

(** C4, amended.  [getMatrixToACPC] checks nothing and raises nothing.
    If [ac == pc] (element by element, as numpy compares), every entry of
    the returned matrix above the bottom row [(0, 0, 0, 1)] is NaN, for
    every [ih].  If [ih == ac], the lateral-axis row is NaN in every
    entry, so the matrix contains NaN.  And whenever the cross product of
    line 31 is a zero vector, line 32 turns it into NaN in every
    component. *)
Theorem degenerate_input_yields_nan (ac pc ih : vec3 float) :
  (vec_eqb ac pc = true ->
   getMatrixToACPC ac pc ih = M4 nan4 nan4 nan4 (V4 0 0 0 1))
  /\ (vec_eqb ih ac = true ->
      r0 (rot_block (getMatrixToACPC ac pc ih)) = nan3
      /\ has_nan (getMatrixToACPC ac pc ih) = true)
  /\ (forall w : vec3 float,
        zero_vec w -> np_div_s w (np_linalg_norm w) = nan3).
Proof.
  split; [|split].
  - intros Hab. apply yAxis_nan_all_nan, yAxis_coincident, Hab.
  - intros Hia. pose proof (xAxis_ih_on_ac ac pc ih Hia) as Hx. split.
    + rewrite rot_block_get. exact Hx.
    + assert (Hq : d0 (q0 (getMatrixToACPC ac pc ih)) = c0 (xAxis_of ac pc ih))
        by reflexivity.
      unfold has_nan, row_has_nan. rewrite Hq, Hx. reflexivity.
  - apply normalize_zero_vec.
Qed.

Lemma degenerate_input_yields_nan_witness :
  vec_eqb (V3 0 1 2) (V3 (-0) 1 2) = true
  /\ getMatrixToACPC (V3 0 1 2) (V3 (-0) 1 2) (V3 4 5 6)
     = M4 nan4 nan4 nan4 (V4 0 0 0 1).
Proof.
  split; [reflexivity|].
  exact (proj1 (degenerate_input_yields_nan (V3 0 1 2) (V3 (-0) 1 2) (V3 4 5 6))
           eq_refl).
Defined.
End Float64Degenerate.

(* ===================================================================== *)
(** ** binary64: swapping [ac] and [pc] *)
(* ===================================================================== *)

Section Float64Sign.
Local Open Scope float_scope.

Ltac funfold :=
  unfold np_linalg_norm, np_dot_mv, np_vstack, np_cross, np_dot, np_neg,
    np_dot_s, np_div_s, np_add, np_sub, nan3, nan4;
  cbn [c0 c1 c2 r0 r1 r2 sadd ssub smul sdiv sneg ssqrt s0 s1 shalf
       float_Scalar].

(** *** Rounding does not look at the sign *)

Lemma binary_round_aux_opp (p e : Z) (s : bool) (m x : Z) (l : location) :
  SFopp (binary_round_aux p e s m x l) = binary_round_aux p e (negb s) m x l.
Proof.
  unfold binary_round_aux.
  destruct (shr_fexp p e m x l) as [mrs' e'].
  destruct (shr_fexp p e _ e' loc_Exact) as [mrs'' e''].
  destruct (shr_m mrs''); try reflexivity.
  destruct (Z.leb _ _); reflexivity.
Qed.

Lemma binary_round_opp (p e : Z) (s : bool) (m : positive) (x : Z) :
  SFopp (binary_round p e s m x) = binary_round p e (negb s) m x.
Proof.
  unfold binary_round. destruct (shl_align _ _ _) as [mz ez].
  apply binary_round_aux_opp.
Qed.

(** [b - a] is [-(a - b)], but for an exact zero, which is [+0] both
    ways. *)
Lemma SFsub_swap_finite (p e : Z) (sx sy : bool) (mx my : positive) (ex ey : Z) :
  let x := S754_finite sx mx ex in
  let y := S754_finite sy my ey in
  SFsub p e y x = SFopp (SFsub p e x y)
  \/ (SFsub p e y x = S754_zero false /\ SFsub p e x y = S754_zero false).
Proof.
  cbv zeta. cbn [SFsub]. rewrite (Z.min_comm ey ex).
  set (Cx := cond_Zopp sx (Z.pos (fst (shl_align mx ex (Z.min ex ey))))).
  set (Cy := cond_Zopp sy (Z.pos (fst (shl_align my ey (Z.min ex ey))))).
  replace (Cy - Cx)%Z with (- (Cx - Cy))%Z by ring.
  destruct (Cx - Cy)%Z as [|d|d]; cbn [Z.opp binary_normalize].
  - right. split; reflexivity.
  - left. rewrite binary_round_opp. reflexivity.
  - left. rewrite binary_round_opp. reflexivity.
Qed.

Lemma SFsub_swap (p e : Z) (x y : spec_float) :
  SFsub p e y x = SFopp (SFsub p e x y)
  \/ (SFsub p e y x = S754_zero false /\ SFsub p e x y = S754_zero false).
Proof.
  destruct x as [sx|sx| |sx mx ex], y as [sy|sy| |sy my ey];
    try apply SFsub_swap_finite;
    try (left; reflexivity);
    try (destruct sx; (left; reflexivity) || (right; split; reflexivity));
    try (destruct sy; (left; reflexivity) || (right; split; reflexivity));
    destruct sx, sy; (left; reflexivity) || (right; split; reflexivity).
Qed.

Lemma SFmul_opp_opp (p e : Z) (x : spec_float) :
  SFmul p e (SFopp x) (SFopp x) = SFmul p e x x.
Proof. destruct x as [[|]|[|]| |[|] m x]; reflexivity. Qed.

Lemma SFdiv_opp_l (p e : Z) (x n : spec_float) :
  SFdiv p e (SFopp x) n = SFopp (SFdiv p e x n).
Proof.
  destruct x as [sx|sx| |sx mx ex], n as [sn|sn| |sn mn en];
    try reflexivity; try (destruct sx, sn; reflexivity).
  cbn [SFdiv SFopp]. destruct (SFdiv_core_binary _ _ _ _ _ _) as [[mz ez] lz].
  rewrite binary_round_aux_opp. destruct sx, sn; reflexivity.
Qed.

(** *** On binary64 *)

Lemma sub_swap64 (a b : float) : same_up_to_zero_sign (b - a) (- (a - b)).
Proof.
  destruct (SFsub_swap prec emax (Prim2SF a) (Prim2SF b)) as [Hs | [Hba Hab]].
  - left. apply Prim2SF_inj. rewrite opp_spec, !sub_spec. exact Hs.
  - right. rewrite opp_spec, !sub_spec.
    unfold SF64sub. rewrite Hba, Hab. exact I.
Qed.

Lemma sq_same (x y : float) : same_up_to_zero_sign x (- y) -> x * x = y * y.
Proof.
  intros [-> | Hz]; apply Prim2SF_inj; rewrite !mul_spec.
  - rewrite opp_spec. apply SFmul_opp_opp.
  - rewrite opp_spec in Hz.
    destruct (Prim2SF x) as [sx|sx| |sx mx ex]; try contradiction.
    destruct (Prim2SF y) as [sy|sy| |sy my ey]; try contradiction.
    destruct sx, sy; reflexivity.
Qed.

Lemma div_same (x y n : float) :
  same_up_to_zero_sign x (- y) -> same_up_to_zero_sign (x / n) (- (y / n)).
Proof.
  intros [-> | Hz].
  - left. apply Prim2SF_inj. rewrite opp_spec, !div_spec, opp_spec.
    apply SFdiv_opp_l.
  - rewrite opp_spec in Hz.
    destruct (Prim2SF x) as [sx|sx| |sx mx ex] eqn:Ex; try contradiction.
    destruct (Prim2SF y) as [sy|sy| |sy my ey] eqn:Ey; try contradiction.
    destruct (Prim2SF n) as [sn|sn| |sn mn en] eqn:En.
    + left. apply Prim2SF_inj. rewrite opp_spec, !div_spec, Ex, Ey, En.
      reflexivity.
    + right. rewrite opp_spec, !div_spec, Ex, Ey, En. exact I.
    + left. apply Prim2SF_inj. rewrite opp_spec, !div_spec, Ex, Ey, En.
      reflexivity.
    + right. rewrite opp_spec, !div_spec, Ex, Ey, En. exact I.
Qed.

Lemma same_up_to_zero_sign_same64 (x y : float) :
  same_up_to_zero_sign x y -> same64 x y = true.
Proof.
  unfold same64. intros [-> | Hz].
  - unfold is_nan. destruct (y =? y); reflexivity.
  - rewrite FloatAxioms.eqb_spec.
    destruct (Prim2SF x) as [sx|sx| |sx mx ex]; try contradiction.
    destruct (Prim2SF y) as [sy|sy| |sy my ey]; try contradiction.
    reflexivity.
Qed.

(** Swapping [ac] and [pc] negates [yAxis], component by component. *)
Lemma yAxis_swap64 (ac pc : vec3 float) :
  same_up_to_zero_sign (c0 (yAxis_of pc ac)) (- c0 (yAxis_of ac pc))
  /\ same_up_to_zero_sign (c1 (yAxis_of pc ac)) (- c1 (yAxis_of ac pc))
  /\ same_up_to_zero_sign (c2 (yAxis_of pc ac)) (- c2 (yAxis_of ac pc)).
Proof.
  destruct ac as [a0 a1 a2], pc as [b0 b1 b2].
  unfold yAxis_of. cbv zeta. funfold.
  pose proof (sub_swap64 a0 b0) as H0.
  pose proof (sub_swap64 a1 b1) as H1.
  pose proof (sub_swap64 a2 b2) as H2.
  rewrite (sq_same _ _ H0), (sq_same _ _ H1), (sq_same _ _ H2).
  repeat split; apply div_same; assumption.
Qed.

End Float64Sign.


(* ===================================================================== *)
(** ** binary64: where the exact statements end *)
(* ===================================================================== *)

(** The statements proved over the reals in [ExactAlgebra] are not
    statements about the matrix the program returns.  Every input below
    is finite, with [ac <> pc] and, where there is one, [ih] off the
    AC-PC line. *)

(** The squared AC-PC distance overflows: [yAxis] is the zero vector and
    the other two rows are NaN. *)
Lemma overflow_gives_nan64 :
  (getMatrixToACPC (V3 0x1p+600 0 0) (V3 (-0x1p+600) 0 0) (V3 0 0x1p+600 0)
   = M4 nan4 (V4 0 0 0 nan) nan4 (V4 0 0 0 1))%float.
Proof. vm_compute. reflexivity. Qed.

(** The point of line 43 is not the midpoint [(ac + pc)/2]. *)
Lemma line43_point_not_midpoint64 :
  (origin_of (V3 3 3 1) (V3 0 0 0)
   = V3 0x1.8000000000001p+0 0x1.8000000000001p+0 0.5
   /\ V3 ((3 + 0) / 2) ((3 + 0) / 2) ((1 + 0) / 2) = V3 1.5 1.5 0.5)%float.
Proof. split; vm_compute; reflexivity. Qed.

(** Moving [ih] along its ray from [ac] changes the matrix when the
    cross product of line 31 gets a squared norm that overflows: here
    [ih' = ac + k*(ih - ac)] with [k = 2^600], and the lateral and
    rostrocaudal rows become zero. *)
Lemma ray_changes_matrix64 :
  (np_add (V3 0 1 0) (np_dot_s (np_sub (V3 0 1 1) (V3 0 1 0)) 0x1p+600)
   = V3 0 1 0x1p+600
   /\ rot_block (getMatrixToACPC (V3 0 1 0) (V3 0 (-1) 0) (V3 0 1 1))
      = M3 (V3 1 0 0) (V3 0 1 0) (V3 0 0 1)
   /\ rot_block (getMatrixToACPC (V3 0 1 0) (V3 0 (-1) 0) (V3 0 1 0x1p+600))
      = M3 (V3 0 0 0) (V3 0 1 0) (V3 0 0 0))%float.
Proof. repeat split; vm_compute; reflexivity. Qed.

(* ===================================================================== *)
(** ** binary64: the matrix handed to the transform node *)
(* ===================================================================== *)

Section Float64Scene.
Local Open Scope float_scope.

Lemma zero_cases (x : float) :
  match Prim2SF x with S754_zero _ => True | _ => False end ->
  x = 0 \/ x = -0.
Proof.
  destruct (Prim2SF x) as [[|]| | |] eqn:Ex; try contradiction; intros _.
  - right. apply Prim2SF_inj. rewrite Ex. reflexivity.
  - left. apply Prim2SF_inj. rewrite Ex. reflexivity.
Qed.

Lemma vtk_keep_one (new : float) : vtk_keep 1 new = new.
Proof.
  unfold vtk_keep, sne, float_ScalarNe. destruct (1 =? new) eqn:E; [|reflexivity].
  destruct (eqb_cases _ _ E) as [He | Hz]; [exact He|].
  vm_compute in Hz. contradiction.
Qed.

Lemma vtk_keep_zero (new : float) :
  vtk_keep 0 new = new \/ (new = -0 /\ vtk_keep 0 new = 0).
Proof.
  unfold vtk_keep, sne, float_ScalarNe. destruct (0 =? new) eqn:E; [|left; reflexivity].
  cbn [negb]. destruct (eqb_cases _ _ E) as [He | Hz]; [left; exact He|].
  change (Prim2SF 0) with (S754_zero false) in Hz. cbn iota in Hz.
  destruct (zero_cases new Hz) as [-> | ->]; [left|right; split]; reflexivity.
Qed.


End Float64Scene.
